(** * TiMian_Bot: the IP & CIDR manager bot of [src/index.js]

    A shallow embedding of the handlers that [index.js] registers on the
    Telegram bot object, and of the SQLite table and the two in-memory
    dictionaries ([listPage], [batchAddData]) they work on.

    Modelling decisions, all read off the source:
    - a JavaScript string is a Rocq [string]; its characters are the code
      units below 256;
    - Telegram identifiers (chat, user, message) and SQLite row ids are
      integers ([Z]);
    - the table [ip_addresses] is the list of its rows in rowid order, which
      is the order in which SQLite returns them for a [SELECT] without
      [ORDER BY]; a [NULL] column is [None];
    - [listPage] and [batchAddData] are finite maps keyed by the chat id;
    - everything the bot sends to Telegram is appended to a log of calls;
    - a handler and the database callbacks it starts run to completion before
      the next handler starts; a failing database call is decided by a tape of
      outcomes carried in the state, one entry per call;
    - [console.error] lines are not part of the model;
    - the two functions of the [ip-cidr] package that the bot calls,
      [CIDR.isValidCIDR] and [new CIDR(c).contains(a)], are parameters. *)

From stdpp Require Import base gmap list strings pretty sorting.
From Stdlib Require Import ZArith Ascii String Lia.

Local Open Scope string_scope.
Local Open Scope Z_scope.

(** ** JavaScript strings *)

Module Js.

Definition LF : ascii := "010"%char.

(** [WhiteSpace] and [LineTerminator] of ECMAScript, restricted to the code
    units below 256: TAB, LF, VT, FF, CR, SP and NBSP. *)
Definition isWhiteSpace (c : ascii) : bool :=
  let n := nat_of_ascii c in
  ((9 <=? n) && (n <=? 13) || (n =? 32) || (n =? 160))%nat.

(** [String.prototype.trimStart]. *)
Fixpoint trimStart (s : string) : string :=
  match s with
  | EmptyString => EmptyString
  | String c s' => if isWhiteSpace c then trimStart s' else s
  end.

(** [String.prototype.trimEnd]. *)
Fixpoint trimEnd (s : string) : string :=
  match s with
  | EmptyString => EmptyString
  | String c s' =>
      match trimEnd s' with
      | EmptyString => if isWhiteSpace c then EmptyString else String c EmptyString
      | t => String c t
      end
  end.

(** [String.prototype.trim]. *)
Definition trim (s : string) : string := trimEnd (trimStart s).

(** [s.split(sep)] for a one-character separator. *)
Fixpoint split (sep : ascii) (s : string) : list string :=
  match s with
  | EmptyString => [EmptyString]
  | String c s' =>
      if Ascii.eqb c sep then EmptyString :: split sep s'
      else match split sep s' with
           | h :: t => String c h :: t
           | [] => [String c EmptyString]
           end
  end.

(** [a.join(sep)]. *)
Definition join (sep : string) (a : list string) : string := String.concat sep a.

(** [s.startsWith(p)]. *)
Definition startsWith (p s : string) : bool := String.prefix p s.

(** [match[1]] of [/LIT(.+)/.exec(s)] for a literal [LIT]: at the leftmost
    position where [LIT] is followed by a character other than a line
    terminator, the longest run of such characters. *)
Definition isLineTerminator (c : ascii) : bool :=
  let n := nat_of_ascii c in ((n =? 10) || (n =? 13))%nat.

Fixpoint dots (s : string) : string :=
  match s with
  | EmptyString => EmptyString
  | String c s' => if isLineTerminator c then EmptyString else String c (dots s')
  end.

Fixpoint after_literal (lit s : string) : option string :=
  match lit, s with
  | EmptyString, _ => Some s
  | String a lit', String b s' => if Ascii.eqb a b then after_literal lit' s' else None
  | String _ _, EmptyString => None
  end.

Fixpoint exec_literal_dots (lit s : string) : option string :=
  let here := match after_literal lit s with
              | Some rest => match dots rest with
                             | EmptyString => None
                             | cap => Some cap
                             end
              | None => None
              end in
  match here with
  | Some cap => Some cap
  | None => match s with
            | EmptyString => None
            | String _ s' => exec_literal_dots lit s'
            end
  end.

(** Truthiness of a string: every string but the empty one. *)
Definition truthy (s : string) : bool := negb (String.eqb s "").

(** Template-literal rendering of an integer and of a nullable text column. *)
Definition showZ (z : Z) : string := pretty z.

Definition showNullable (o : option string) : string :=
  match o with Some s => s | None => "null" end.

(** *** [parseInt] with no radix argument

    Leading white space is skipped, one sign is read, a [0x]/[0X] prefix
    selects radix 16, and the longest prefix of digits is converted; [None]
    stands for [NaN]. *)

Definition digitValue (c : ascii) : option Z :=
  let n := Z.of_nat (nat_of_ascii c) in
  if (48 <=? n) && (n <=? 57) then Some (n - 48)
  else if (97 <=? n) && (n <=? 122) then Some (n - 87)
  else if (65 <=? n) && (n <=? 90) then Some (n - 55)
  else None.

Fixpoint digits (radix : Z) (acc : option Z) (s : string) : option Z :=
  match s with
  | EmptyString => acc
  | String c s' =>
      match digitValue c with
      | Some d =>
          if d <? radix
          then digits radix (Some (radix * default 0 acc + d)) s'
          else acc
      | None => acc
      end
  end.

Definition unsignedInt (s : string) : option Z :=
  match s with
  | String "0" (String "x" s') | String "0" (String "X" s') => digits 16 None s'
  | _ => digits 10 None s
  end.

Definition parseInt (s : string) : option Z :=
  match trimStart s with
  | String "-" s' => Z.opp <$> unsignedInt s'
  | String "+" s' => unsignedInt s'
  | s' => unsignedInt s'
  end.

End Js.

(** ** Data model *)

(** A row of [ip_addresses (id, user_id, ip_address, cidr)].  [user_id] is a
    [TEXT] column holding the text SQLite makes of the Telegram user id bound
    to it; it is kept as the integer it denotes. *)
Record Row : Type := mkRow {
  id : Z;
  user_id : Z;
  ip_address : option string;
  cidr : option string
}.

(** An entry of [batchAddData]: [{ userId, addresses, messageId }];
    [messageId] is absent until the confirmation prompt has been sent. *)
Record Batch : Type := mkBatch {
  userId : Z;
  addresses : list string;
  messageId : option Z
}.

(** An inline-keyboard button [{ text, callback_data }]. *)
Record Button : Type := mkButton {
  text : string;
  callback_data : string
}.

(** The calls made on the [bot] object. *)
Inductive Call : Type :=
| sendMessage (chatId : Z) (body : string) (inline_keyboard : option (list (list Button)))
| deleteMessage (chatId : Z) (message : string)
| answerCallbackQuery (callbackQueryId : string).

(** The state the handlers share: the table with SQLite's
    [sqlite_sequence] counter for [AUTOINCREMENT], the tape deciding which
    database calls fail (and with which message), the two dictionaries, and
    the calls made so far, oldest first. *)
Record World : Type := mkWorld {
  ip_addresses : list Row;
  sqlite_sequence : Z;
  faults : list (option string);
  listPage : gmap Z Z;
  batchAddData : gmap Z Batch;
  calls : list Call
}.

Definition initial : World := mkWorld [] 0 [] ∅ ∅ [].

(** How a handler ends: it returns, it throws, or it reaches a [NaN] page
    number, which the integers of this model do not represent. *)
Inductive completion : Type :=
| Normal
| Throw (e : string)
| NaNPage.

Definition set_table (t : list Row) (seq : Z) (w : World) : World :=
  mkWorld t seq (faults w) (listPage w) (batchAddData w) (calls w).

Definition set_faults (f : list (option string)) (w : World) : World :=
  mkWorld (ip_addresses w) (sqlite_sequence w) f (listPage w) (batchAddData w) (calls w).

Definition set_listPage (m : gmap Z Z) (w : World) : World :=
  mkWorld (ip_addresses w) (sqlite_sequence w) (faults w) m (batchAddData w) (calls w).

Definition set_batchAddData (m : gmap Z Batch) (w : World) : World :=
  mkWorld (ip_addresses w) (sqlite_sequence w) (faults w) (listPage w) m (calls w).

Definition call (c : Call) (w : World) : World :=
  mkWorld (ip_addresses w) (sqlite_sequence w) (faults w) (listPage w) (batchAddData w)
          (calls w ++ [c])%list.

(** ** The database *)

(** Each [db.get], [db.all] or [db.run] reads the next entry of the tape:
    [Some m] is an error with message [m]; an exhausted tape never fails. *)
Definition db_call (w : World) : option string * World :=
  match faults w with
  | [] => (None, w)
  | f :: fs => (f, set_faults fs w)
  end.

(** SQL [column = ?] for a text parameter: never true on [NULL]. *)
Definition col_eq (column : option string) (v : string) : bool :=
  match column with
  | Some s => String.eqb s v
  | None => false
  end.

(** [WHERE user_id = ? AND (ip_address = ? OR cidr = ?)]. *)
Definition where_owner_value (u : Z) (a c : string) (r : Row) : bool :=
  (user_id r =? u) && (col_eq (ip_address r) a || col_eq (cidr r) c).

(** [LIMIT ? OFFSET ?]: SQLite reads a negative offset as 0 and a negative
    limit as no limit. *)
Definition select_limit_offset (limit offset : Z) (t : list Row) : list Row :=
  let t' := drop (Z.to_nat offset) t in
  if limit <? 0 then t' else take (Z.to_nat limit) t'.

(** [function addEntry(userId, input, isCidr, callback)]: the result is the
    [err] handed to the callback.  The new row takes the next
    [AUTOINCREMENT] id. *)
Definition addEntry (userId : Z) (input : string) (isCidr : bool) (w : World)
  : option string * World :=
  let '(err, w) := db_call w in
  match err with
  | Some m => (Some m, w)
  | None =>
      let rowid := sqlite_sequence w + 1 in
      let row := if isCidr then mkRow rowid userId None (Some input)
                 else mkRow rowid userId (Some input) None in
      (None, set_table (ip_addresses w ++ [row])%list rowid w)
  end.

(** ** The handlers *)

Definition helpMessage : string :=
"
Welcome to the IP & CIDR Manager Bot!

Available commands:
/start - Start the bot
/help - Show this help message
/add <IP or CIDR> - Add an IP address or CIDR
/delete <IP or CIDR> - Delete an IP address or CIDR
/list - List all stored IP addresses and CIDRs
/check <IP or CIDR> - Check if an IP address is within a stored CIDR or if a CIDR exists
/batchadd - Batch add multiple IP addresses or CIDRs
".

Section Handlers.

(** [CIDR.isValidCIDR(s)] on a string, and [new CIDR(c).contains(a)] on a
    CIDR text that [isValidCIDR] accepted. *)
Variable isValidCIDR : string -> bool.
Variable contains : string -> string -> bool.

(** [CIDR.isValidCIDR(row.cidr)]: the package answers [false] for a value
    that is not a string, so for [null]. *)
Definition isValidCIDR_column (c : option string) : bool :=
  match c with
  | Some s => isValidCIDR s
  | None => false
  end.

(** [bot.onText(/\/start|\/help/, ...)]. *)
Definition on_start_help (chat : Z) (w : World) : World :=
  call (sendMessage chat helpMessage None) w.

(** [bot.onText(/\/add (.+)/, ...)]; [match1] is [match[1]]. *)
Definition on_add (from chat : Z) (match1 : string) (w : World) : World :=
  let userId := from in
  let input := Js.trim match1 in
  let isCidr := isValidCIDR input in
  let '(err, w) := db_call w in
  match err with
  | Some m => call (sendMessage chat ("Error checking if it exists: " +:+ m) None) w
  | None =>
      let row := List.find
                   (where_owner_value userId input (if isCidr then "" else input))
                   (ip_addresses w) in
      match row with
      | Some _ =>
          call (sendMessage chat ("Address " +:+ input +:+ " has already been added.") None) w
      | None =>
          let '(err, w) := addEntry userId input isCidr w in
          match err with
          | Some m => call (sendMessage chat ("Error adding entry: " +:+ m) None) w
          | None =>
              call (sendMessage chat
                      ((if isCidr then "CIDR" else "IP address") +:+ " " +:+ input
                       +:+ " added successfully.") None) w
          end
      end
  end.

(** [bot.onText(/\/delete (.+)/, ...)]; [changes] is [this.changes]. *)
Definition on_delete (from chat : Z) (match1 : string) (w : World) : World :=
  let userId := from in
  let input := Js.trim match1 in
  let '(err, w) := db_call w in
  match err with
  | Some m => call (sendMessage chat ("Error deleting the entry: " +:+ m) None) w
  | None =>
      let hit := where_owner_value userId input input in
      let changes := List.length (List.filter hit (ip_addresses w)) in
      let w := set_table (List.filter (fun r => negb (hit r)) (ip_addresses w))
                         (sqlite_sequence w) w in
      if (0 <? changes)%nat
      then call (sendMessage chat ("Entry " +:+ input +:+ " deleted successfully.") None) w
      else call (sendMessage chat ("No entry found for " +:+ input +:+ ".") None) w
  end.

(** The line that [rows.map] builds for a row. *)
Definition row_line (row : Row) : string :=
  "ID: " +:+ Js.showZ (id row) +:+ ", User: " +:+ Js.showZ (user_id row)
  +:+ ", IP: " +:+ Js.showNullable (ip_address row)
  +:+ ", CIDR: " +:+ Js.showNullable (cidr row).

(** [function listIpAddresses(chatId, page)]. *)
Definition listIpAddresses (chatId page : Z) (w : World) : World :=
  let limit := 10 in
  let offset := page * limit in
  let '(err, w) := db_call w in
  match err with
  | Some m => call (sendMessage chatId ("Error fetching list: " +:+ m) None) w
  | None =>
      let rows := select_limit_offset limit offset (ip_addresses w) in
      let response := Js.join (String Js.LF "") (map row_line rows) in
      let paginationKeyboard :=
        ((if 0 <? page
          then [mkButton "Previous" ("prev_page_" +:+ Js.showZ page)] else [])
         ++ (if Z.of_nat (List.length rows) =? limit
             then [mkButton "Next" ("next_page_" +:+ Js.showZ page)] else []))%list in
      call (sendMessage chatId
              (if Js.truthy response then response else "No entries found.")
              (Some [paginationKeyboard])) w
  end.

(** [bot.onText(/\/list/, ...)]. *)
Definition on_list (chat : Z) (w : World) : World :=
  let w := set_listPage (<[chat := 0]> (listPage w)) w in
  listIpAddresses chat 0 w.

(** The [addresses.map(...)] of the confirmation branch with the
    [Promise.all] that waits for it: one [addEntry] per address, each
    callback bumping [successCount] or [errorCount].  The inserts are taken
    in the order of the list. *)
Fixpoint addPromises (userId : Z) (addresses : list string) (w : World)
  : nat * nat * World :=
  match addresses with
  | [] => (0%nat, 0%nat, w)
  | address :: rest =>
      let isCidr := isValidCIDR address in
      let '(err, w) := addEntry userId address isCidr w in
      let '(successCount, errorCount, w) := addPromises userId rest w in
      match err with
      | Some _ => (successCount, S errorCount, w)
      | None => (S successCount, errorCount, w)
      end
  end.

(** Truthiness of [batchAddData[chatId].messageId]. *)
Definition messageId_truthy (b : Batch) : option Z :=
  match messageId b with
  | Some m => if m =? 0 then None else Some m
  | None => None
  end.

(** [if (batchAddData[chatId].messageId) bot.deleteMessage(...);
    delete batchAddData[chatId];], which throws a [TypeError] when
    [batchAddData[chatId]] is undefined. *)
Definition retract_and_clear (chatId : Z) (w : World) : World * completion :=
  match batchAddData w !! chatId with
  | None => (w, Throw "TypeError")
  | Some b =>
      let w := match messageId_truthy b with
               | Some m => call (deleteMessage chatId (Js.showZ m)) w
               | None => w
               end in
      (set_batchAddData (delete chatId (batchAddData w)) w, Normal)
  end.

(** [bot.on('callback_query', ...)].  In the paging branch
    [answerCallbackQuery] is called before the callback of [db.all] sends the
    page.  In the confirmation branch the [then] of [Promise.all] is part of
    the same step, so the entry that the guard found is still there when it
    is read again. *)
Definition on_callback_query (chatId from : Z) (queryId data : string) (w : World)
  : World * completion :=
  if Js.startsWith "prev_page_" data || Js.startsWith "next_page_" data then
    match Js.split "_" data !! 2%nat ≫= Js.parseInt with
    | None => (w, NaNPage)
    | Some page =>
        let newPage := if Js.startsWith "prev_page_" data then page - 1 else page + 1 in
        let w := set_listPage (<[chatId := newPage]> (listPage w)) w in
        let w := call (answerCallbackQuery queryId) w in
        (listIpAddresses chatId newPage w, Normal)
    end
  else if String.eqb data "confirm_batch_add"
          && match batchAddData w !! chatId with
             | Some b => userId b =? from
             | None => false
             end then
    match batchAddData w !! chatId with
    | None => (w, Normal)
    | Some b =>
        let '(successCount, errorCount, w) := addPromises from (addresses b) w in
        let w := call (sendMessage chatId
                         ("Batch add completed. " +:+ Js.showZ (Z.of_nat successCount)
                          +:+ " addresses added successfully, "
                          +:+ Js.showZ (Z.of_nat errorCount) +:+ " errors.") None) w in
        retract_and_clear chatId w
    end
  else if String.eqb data "cancel_batch_add" then
    let w := call (sendMessage chatId "Batch add cancelled." None) w in
    retract_and_clear chatId w
  else (w, Normal).

(** The two [for (const row of rows)] loops of the check handler; the
    boolean is [found]. *)
Fixpoint check_cidr_loop (chat : Z) (input : string) (rows : list Row) (w : World)
  : bool * World :=
  match rows with
  | [] => (false, w)
  | row :: rest =>
      if col_eq (cidr row) input
      then (true, call (sendMessage chat ("CIDR " +:+ input +:+ " exists in your records.") None) w)
      else check_cidr_loop chat input rest w
  end.

Definition check_hit (input : string) (row : Row) : bool :=
  col_eq (ip_address row) input
  || (isValidCIDR_column (cidr row)
      && match cidr row with Some c => contains c input | None => false end).

Fixpoint check_ip_loop (chat : Z) (input : string) (rows : list Row) (w : World)
  : bool * World :=
  match rows with
  | [] => (false, w)
  | row :: rest =>
      if check_hit input row
      then (true, call (sendMessage chat
                          (input +:+ " is within CIDR " +:+ Js.showNullable (cidr row)
                           +:+ " from user " +:+ Js.showZ (user_id row)) None) w)
      else check_ip_loop chat input rest w
  end.

(** [bot.onText(/\/check (.+)/, ...)]. *)
Definition on_check (chat : Z) (match1 : string) (w : World) : World :=
  let input := Js.trim match1 in
  let '(err, w) := db_call w in
  match err with
  | Some m => call (sendMessage chat ("Error checking IP: " +:+ m) None) w
  | None =>
      let rows := ip_addresses w in
      if isValidCIDR input then
        let '(found, w) := check_cidr_loop chat input rows w in
        if found then w
        else call (sendMessage chat ("CIDR " +:+ input +:+ " does not exist in your records.") None) w
      else
        let '(found, w) := check_ip_loop chat input rows w in
        if found then w
        else call (sendMessage chat (input +:+ " is not within any stored CIDR.") None) w
  end.

(** [bot.onText(/\/batchadd/, ...)]. *)
Definition on_batchadd (chat from : Z) (w : World) : World :=
  let w := set_batchAddData (<[chat := mkBatch from [] None]> (batchAddData w)) w in
  call (sendMessage chat "Please send the IP addresses or CIDRs, one per line." None) w.

(** [bot.on('message', ...)]; [body] is [msg.text], undefined for a message
    without text, and [sent_id] is the [message_id] Telegram gives to the
    confirmation prompt, stored by the [.then] of its [sendMessage]. *)
Definition on_message (chat : Z) (body : option string) (sent_id : Z) (w : World)
  : World * completion :=
  match batchAddData w !! chat with
  | None => (w, Normal)
  | Some b =>
      match body with
      | None => (w, Throw "TypeError")
      | Some t =>
          let t := Js.trim t in
          if Js.truthy t then
            let addresses := List.filter Js.truthy (map Js.trim (Js.split Js.LF t)) in
            let w := set_batchAddData
                       (<[chat := mkBatch (userId b) addresses (messageId b)]> (batchAddData w)) w in
            let confirmMessage :=
              "Are you sure you want to add the following addresses?"
              +:+ String Js.LF (String Js.LF "") +:+ Js.join (String Js.LF "") addresses in
            let w := call (sendMessage chat confirmMessage
                             (Some [[mkButton "Yes" "confirm_batch_add";
                                     mkButton "No" "cancel_batch_add"]])) w in
            (set_batchAddData
               (<[chat := mkBatch (userId b) addresses (Some sent_id)]> (batchAddData w)) w,
             Normal)
          else
            let w := call (sendMessage chat "No valid addresses found. Please try again." None) w in
            (set_batchAddData (delete chat (batchAddData w)) w, Normal)
      end
  end.

(** *** Events

    One constructor per handler invocation, with the arguments the handler
    reads from [msg], [match] or [callbackQuery].  A text message raises a
    [Message] event and then one event for each command pattern it matches. *)
Inductive Event : Type :=
| StartHelp (chat : Z)
| AddCmd (from chat : Z) (match1 : string)
| DeleteCmd (from chat : Z) (match1 : string)
| ListCmd (chat : Z)
| CallbackQuery (chat from : Z) (queryId data : string)
| CheckCmd (chat : Z) (match1 : string)
| BatchAddCmd (chat from : Z)
| Message (chat : Z) (body : option string) (sent_id : Z).

Definition handle (e : Event) (w : World) : World * completion :=
  match e with
  | StartHelp chat => (on_start_help chat w, Normal)
  | AddCmd from chat m => (on_add from chat m w, Normal)
  | DeleteCmd from chat m => (on_delete from chat m w, Normal)
  | ListCmd chat => (on_list chat w, Normal)
  | CallbackQuery chat from q d => on_callback_query chat from q d w
  | CheckCmd chat m => (on_check chat m w, Normal)
  | BatchAddCmd chat from => (on_batchadd chat from w, Normal)
  | Message chat body sent_id => on_message chat body sent_id w
  end.

(** A run of events; after a handler that throws, the run goes on from the
    state that handler left. *)
Fixpoint run (es : list Event) (w : World) : World :=
  match es with
  | [] => w
  | e :: es' => run es' (fst (handle e w))
  end.

End Handlers.

(** ** A sample instance of the [ip-cidr] parameters

    IPv4 dotted-quad text only: [a.b.c.d/p] with four decimal fields up to
    255 and a prefix length up to 32.  It serves to run the handlers on
    concrete inputs; the theorems below hold for every instance. *)

Module IPv4.

Fixpoint decimal_go (acc : Z) (s : string) : option Z :=
  match s with
  | EmptyString => Some acc
  | String c s' =>
      let n := Z.of_nat (nat_of_ascii c) in
      if (48 <=? n) && (n <=? 57) then decimal_go (10 * acc + (n - 48)) s' else None
  end.

Definition decimal (s : string) : option Z :=
  match s with
  | EmptyString => None
  | _ => decimal_go 0 s
  end.

Definition field (bound : Z) (s : string) : option Z :=
  match decimal s with
  | Some n => if n <=? bound then Some n else None
  | None => None
  end.

Definition address (s : string) : option Z :=
  match Js.split "." s with
  | [a; b; c; d] =>
      match field 255 a, field 255 b, field 255 c, field 255 d with
      | Some a, Some b, Some c, Some d => Some (((a * 256 + b) * 256 + c) * 256 + d)
      | _, _, _, _ => None
      end
  | _ => None
  end.

Definition block (s : string) : option (Z * Z) :=
  match Js.split "/" s with
  | [a; p] =>
      match address a, field 32 p with
      | Some a, Some p => Some (a, p)
      | _, _ => None
      end
  | _ => None
  end.

Definition isValidCIDR (s : string) : bool :=
  match block s with Some _ => true | None => false end.

Definition contains (c a : string) : bool :=
  match block c, address a with
  | Some (net, p), Some x => Z.shiftr net (32 - p) =? Z.shiftr x (32 - p)
  | _, _ => false
  end.

End IPv4.

(** ** Vocabulary of the statements *)

(** The tape entry is an error. *)
Definition is_error (f : option string) : bool :=
  match f with Some _ => true | None => false end.

(** The [i]-th database call from now fails. *)
Definition fails (tape : list (option string)) (i : nat) : bool :=
  match tape !! i with Some f => is_error f | None => false end.

(** Row [r] is what a successful [addEntry(u, a, isCidr)] writes, whatever
    its id. *)
Definition stored_as (isCidr : bool) (u : Z) (a : string) (r : Row) : Prop :=
  user_id r = u
  /\ if isCidr then ip_address r = None /\ cidr r = Some a
     else ip_address r = Some a /\ cidr r = None.

(** What the [WHERE] clause of the delete statement selects. *)
Definition owned_match (u : Z) (v : string) (r : Row) : Prop :=
  user_id r = u /\ (ip_address r = Some v \/ cidr r = Some v).

#[global] Instance owned_match_dec u v r : Decision (owned_match u v r).
Proof. unfold owned_match. apply _. Defined.

(** The test of the check handler's second loop on a row: the bare address
    is the input, or the [cidr] column holds a valid CIDR text whose range
    contains the input. *)
Definition check_matches (isValidCIDR : string -> bool) (contains : string -> string -> bool)
           (input : string) (r : Row) : Prop :=
  ip_address r = Some input
  \/ exists c, cidr r = Some c /\ isValidCIDR c = true /\ contains c input = true.

(** The table part of the state. *)
Definition table_of (w : World) : list Row * Z := (ip_addresses w, sqlite_sequence w).

(** The row [addEntry(u, v, c)] appends when the counter stands at [seq]. *)
Definition new_row (seq u : Z) (v : string) (c : bool) : Row :=
  if c then mkRow (seq + 1) u None (Some v) else mkRow (seq + 1) u (Some v) None.


(** No two rows have the same owner and the same stored value. *)
Definition values_unique (rows : list Row) : Prop :=
  NoDup (map (fun r => (user_id r, ip_address r, cidr r)) rows).



(** The rows are in ascending order of their identifiers. *)
Definition ids_ascending (rows : list Row) : Prop :=
  StronglySorted Z.lt (map id rows).

(** Every character of the string passes the test. *)
Fixpoint string_all (p : ascii -> bool) (s : string) : bool :=
  match s with
  | EmptyString => true
  | String c s' => p c && string_all p s'
  end.

(** A decimal digit. *)
Definition isDigit (c : ascii) : bool :=
  let n := nat_of_ascii c in ((48 <=? n) && (n <=? 57))%nat.

(** The keyboard row and the text of the message sent last. *)
Definition last_keyboard (w : World) : list Button :=
  match last (calls w) with
  | Some (sendMessage _ _ (Some [row])) => row
  | _ => []
  end.

Definition last_body (w : World) : option string :=
  match last (calls w) with
  | Some (sendMessage _ body _) => Some body
  | _ => None
  end.

(** The rows of a list page: [LIMIT 10 OFFSET page * 10]. *)
Definition page_rows (page : Z) (t : list Row) : list Row :=
  select_limit_offset 10 (page * 10) t.


(** The conversation an event belongs to. *)
Definition chat_of (e : Event) : Z :=
  match e with
  | StartHelp chat | ListCmd chat | CheckCmd chat _ | Message chat _ _ => chat
  | AddCmd _ chat _ | DeleteCmd _ chat _ => chat
  | CallbackQuery chat _ _ _ => chat
  | BatchAddCmd chat _ => chat
  end.

(** A call on the bot that sends to, or deletes from, the given chat, or
    that answers a callback query. *)
Definition addressed_to (chat : Z) (c : Call) : Prop :=
  match c with
  | sendMessage chatId _ _ => chatId = chat
  | deleteMessage chatId _ => chatId = chat
  | answerCallbackQuery _ => True
  end.

(** From [w] to [w'] the cursors and pending batches of all other chats are
    untouched, and every call made since is addressed to [chat]. *)
Definition stays_in (chat : Z) (w w' : World) : Prop :=
  (forall other, other <> chat ->
                 listPage w' !! other = listPage w !! other
                 /\ batchAddData w' !! other = batchAddData w !! other)
  /\ exists new, calls w' = (calls w ++ new)%list /\ Forall (addressed_to chat) new.

(** The events that may write to the table. *)
Definition is_writer (e : Event) : bool :=
  match e with
  | AddCmd _ _ _ | DeleteCmd _ _ _ => true
  | CallbackQuery _ _ _ data => String.eqb data "confirm_batch_add"
  | _ => false
  end.

(** The candidate list that the message handler builds from a text. *)
Definition candidates (t : string) : list string :=
  List.filter Js.truthy (map Js.trim (Js.split Js.LF (Js.trim t))).

(** A candidate as the batch stores it: not empty, free of surrounding
    white space, and on one line. *)
Definition clean_candidate (a : string) : Prop :=
  a <> "" /\ Js.trim a = a
  /\ string_all (fun c => negb (Ascii.eqb c Js.LF)) a = true.


(** The confirmation prompt for a candidate list. *)
Definition prompt (chat : Z) (l : list string) : Call :=
  sendMessage chat
    ("Are you sure you want to add the following addresses?"
     +:+ String Js.LF (String Js.LF "") +:+ Js.join (String Js.LF "") l)
    (Some [[mkButton "Yes" "confirm_batch_add"; mkButton "No" "cancel_batch_add"]]).

(** ** Sample states *)

Module Sample.

(** A conversation (chat 1) in which user 7 has a batch of five candidates
    awaiting confirmation, prompt message 100, over an empty table whose
    second and fourth write will fail. *)
Definition batch : Batch :=
  mkBatch 7 ["1.2.3.4"; "10.0.0.0/8"; "5.6.7.8"; "192.168.0.0/16"; "9.9.9.9"] (Some 100).

Definition pending : World :=
  mkWorld [] 0
          [None; Some "SQLITE_FULL: database or disk is full"; None;
           Some "SQLITE_FULL: database or disk is full"; None]
          ∅ {[ 1 := batch ]} [].

(** A table of [n] bare addresses of user 7, ids 1 to [n]. *)
Definition table (n : nat) : World :=
  mkWorld (map (fun i => mkRow (Z.of_nat i) 7 (Some ("10.0.0." +:+ Js.showZ (Z.of_nat i))) None)
               (seq 1 n))
          (Z.of_nat n) [] ∅ ∅ [].

(** Two CIDR blocks of two users, the second inside the first. *)
Definition wide : Row := mkRow 1 7 None (Some "10.0.0.0/8").
Definition narrow : Row := mkRow 2 8 None (Some "10.1.0.0/16").
Definition nested : World := mkWorld [wide; narrow] 2 [] ∅ ∅ [].

(** The same bare address held by two users. *)
Definition shared : World :=
  mkWorld [mkRow 1 7 (Some "1.2.3.4") None; mkRow 2 8 (Some "1.2.3.4") None] 2 [] ∅ ∅ [].

(** A batch that lists one address twice, confirmed by its owner. *)
Definition twice : list Event :=
  [BatchAddCmd 1 7;
   Message 1 (Some ("1.2.3.4" +:+ String Js.LF "1.2.3.4")) 100;
   CallbackQuery 1 7 "q" "confirm_batch_add"].


(** An empty table whose next database call fails, and one whose second
    call fails. *)
Definition busy : World :=
  mkWorld [] 0 [Some "SQLITE_BUSY: database is locked"] ∅ ∅ [].

Definition busy_later : World :=
  mkWorld [] 0 [None; Some "SQLITE_BUSY: database is locked"] ∅ ∅ [].

(** A text of four lines, two of them blank, for a pending batch. *)
Definition lines : string :=
  " 1.2.3.4 " +:+ String Js.LF (String Js.LF ("  " +:+ String Js.LF "10.0.0.0/8 ")).

End Sample.

(** ** Basic facts about the database layer *)

Lemma db_call_quiet (w : World) : faults w = [] -> db_call w = (None, w).
Proof. unfold db_call. intros ->. reflexivity. Qed.

Lemma find_app {A : Type} (f : A -> bool) (l k : list A) :
  List.find f (l ++ k)%list
  = match List.find f l with Some x => Some x | None => List.find f k end.
Proof.
  induction l as [|a l IH]; simpl; [reflexivity|].
  destruct (f a); [reflexivity | exact IH].
Qed.

Lemma col_eq_Some (column : option string) (v : string) :
  col_eq column v = true <-> column = Some v.
Proof.
  destruct column as [s|]; simpl.
  - rewrite String.eqb_eq. split; congruence.
  - split; discriminate.
Qed.

Lemma where_owner_value_spec (u : Z) (v : string) (r : Row) :
  where_owner_value u v v r = true <-> owned_match u v r.
Proof.
  unfold where_owner_value, owned_match.
  rewrite andb_true_iff, orb_true_iff, Z.eqb_eq, !col_eq_Some. reflexivity.
Qed.

Lemma addEntry_quiet (u : Z) (v : string) (c : bool) (w : World) :
  faults w = [] ->
  addEntry u v c w
  = (None, set_table (ip_addresses w
                      ++ [if c then mkRow (sqlite_sequence w + 1) u None (Some v)
                          else mkRow (sqlite_sequence w + 1) u (Some v) None])%list
                     (sqlite_sequence w + 1) w).
Proof. intros Hq. unfold addEntry. rewrite (db_call_quiet w Hq). reflexivity. Qed.

(** ** Handlers that leave the table alone *)

Lemma db_call_table (w : World) : table_of (db_call w).2 = table_of w.
Proof. unfold db_call. destruct (faults w); reflexivity. Qed.





Lemma listIpAddresses_table (chatId page : Z) (w : World) :
  table_of (listIpAddresses chatId page w) = table_of w.
Proof.
  unfold listIpAddresses. pose proof (db_call_table w) as H.
  destruct (db_call w) as [[m|] w0]; exact H.
Qed.

Lemma retract_and_clear_table (chatId : Z) (w : World) :
  table_of (retract_and_clear chatId w).1 = table_of w.
Proof.
  unfold retract_and_clear. destruct (batchAddData w !! chatId) as [b|]; [|reflexivity].
  destruct (messageId_truthy b); reflexivity.
Qed.

Lemma on_message_table (chat : Z) (body : option string) (sent_id : Z) (w : World) :
  table_of (on_message chat body sent_id w).1 = table_of w.
Proof.
  unfold on_message. destruct (batchAddData w !! chat); [|reflexivity].
  destruct body as [t|]; [|reflexivity].
  destruct (Js.truthy (Js.trim t)); reflexivity.
Qed.

Section Claims.

Variable isValidCIDR : string -> bool.
Variable contains : string -> string -> bool.

Local Abbreviation on_add := (on_add isValidCIDR).
Local Abbreviation on_callback_query := (on_callback_query isValidCIDR).
Local Abbreviation on_check := (on_check isValidCIDR contains).
Local Abbreviation handle := (handle isValidCIDR contains).
Local Abbreviation run := (run isValidCIDR contains).
Local Abbreviation addPromises := (addPromises isValidCIDR).

(** *** Single add *)

(** A first add of a value that is not classified as a CIDR block, on a
    store where the owner does not hold it, inserts one [ip_address] row. *)
Lemma add_bare_fresh (from chat : Z) (match1 : string) (w : World) :
  faults w = [] ->
  isValidCIDR (Js.trim match1) = false ->
  List.find (where_owner_value from (Js.trim match1) (Js.trim match1)) (ip_addresses w) = None ->
  on_add from chat match1 w
  = call (sendMessage chat ("IP address " +:+ Js.trim match1 +:+ " added successfully.") None)
         (set_table (ip_addresses w ++ [mkRow (sqlite_sequence w + 1) from (Some (Js.trim match1)) None])%list
                    (sqlite_sequence w + 1) w).
Proof.
  intros Hq Hc Hf. unfold on_add.
  rewrite (db_call_quiet w Hq), Hc, Hf, (addEntry_quiet _ _ _ w Hq). reflexivity.
Qed.

(** Any add of a value the owner already holds as a bare address answers
    "already been added" and leaves the table alone. *)
Lemma add_bare_present (from chat : Z) (match1 : string) (w : World) (r : Row) :
  faults w = [] ->
  isValidCIDR (Js.trim match1) = false ->
  List.find (where_owner_value from (Js.trim match1) (Js.trim match1)) (ip_addresses w) = Some r ->
  on_add from chat match1 w
  = call (sendMessage chat ("Address " +:+ Js.trim match1 +:+ " has already been added.") None) w.
Proof.
  intros Hq Hc Hf. unfold on_add.
  rewrite (db_call_quiet w Hq), Hc, Hf. reflexivity.
Qed.

(** X17: the part of the duplicate check that works: a bare address added
    twice is stored once, and the second add reports it. *)
Lemma add_bare_twice (from chat : Z) (match1 : string) (w : World) :
  faults w = [] ->
  isValidCIDR (Js.trim match1) = false ->
  List.find (where_owner_value from (Js.trim match1) (Js.trim match1)) (ip_addresses w) = None ->
  let w1 := on_add from chat match1 w in
  let w2 := on_add from chat match1 w1 in
  ip_addresses w2 = ip_addresses w1
  /\ ip_addresses w1
     = (ip_addresses w ++ [mkRow (sqlite_sequence w + 1) from (Some (Js.trim match1)) None])%list
  /\ calls w2
     = (calls w1 ++ [sendMessage chat ("Address " +:+ Js.trim match1 +:+ " has already been added.") None])%list.
Proof.
  intros Hq Hc Hf w1 w2.
  assert (E1 := add_bare_fresh from chat match1 w Hq Hc Hf). fold w1 in E1.
  assert (Hq1 : faults w1 = []) by (rewrite E1; exact Hq).
  assert (Hf1 : exists r, List.find (where_owner_value from (Js.trim match1) (Js.trim match1))
                            (ip_addresses w1) = Some r).
  { rewrite E1. simpl. rewrite find_app, Hf. simpl.
    unfold where_owner_value. simpl. rewrite Z.eqb_refl, String.eqb_refl. simpl. eauto. }
  destruct Hf1 as [r Hf1].
  assert (E2 := add_bare_present from chat match1 w1 r Hq1 Hc Hf1). fold w2 in E2.
  rewrite E2. repeat split. rewrite E1. reflexivity.
Qed.

(** C1 (evaluation of the code where the claim fails): a value classified
    as a CIDR block is looked up with [cidr = ''] instead of [cidr = input],
    so the existence query of the second add finds nothing: both adds insert,
    the owner ends with two records of the value, and the second response is
    "added successfully", not "already been added". *)
Theorem add_cidr_twice_stores_two (from chat : Z) (match1 : string) (w : World) :
  faults w = [] ->
  isValidCIDR (Js.trim match1) = true ->
  Js.trim match1 <> "" ->
  List.find (where_owner_value from (Js.trim match1) "") (ip_addresses w) = None ->
  let v := Js.trim match1 in
  let w2 := on_add from chat match1 (on_add from chat match1 w) in
  ip_addresses w2
  = (ip_addresses w ++ [mkRow (sqlite_sequence w + 1) from None (Some v);
                        mkRow (sqlite_sequence w + 2) from None (Some v)])%list
  /\ calls w2
     = (calls w ++ [sendMessage chat ("CIDR " +:+ v +:+ " added successfully.") None;
                    sendMessage chat ("CIDR " +:+ v +:+ " added successfully.") None])%list.
Proof.
  intros Hq Hc Hne Hf v w2. subst w2.
  assert (E1 : on_add from chat match1 w
               = call (sendMessage chat ("CIDR " +:+ v +:+ " added successfully.") None)
                   (set_table (ip_addresses w ++ [mkRow (sqlite_sequence w + 1) from None (Some v)])%list
                      (sqlite_sequence w + 1) w)).
  { unfold on_add. rewrite (db_call_quiet w Hq), Hc, Hf, (addEntry_quiet _ _ _ w Hq).
    reflexivity. }
  rewrite E1. subst v. clear E1.
  set (w1 := call _ _).
  assert (Hq1 : faults w1 = []) by exact Hq.
  assert (E2 : on_add from chat match1 w1
               = call (sendMessage chat ("CIDR " +:+ Js.trim match1 +:+ " added successfully.") None)
                   (set_table (ip_addresses w1
                               ++ [mkRow (sqlite_sequence w1 + 1) from None (Some (Js.trim match1))])%list
                      (sqlite_sequence w1 + 1) w1)).
  { unfold on_add. rewrite (db_call_quiet w1 Hq1), Hc.
    replace (List.find _ (ip_addresses w1)) with (@None Row).
    - rewrite (addEntry_quiet _ _ _ w1 Hq1). reflexivity.
    - subst w1. cbn [ip_addresses call set_table].
      rewrite find_app, Hf. unfold where_owner_value.
      cbn [List.find user_id ip_address cidr col_eq].
      apply String.eqb_neq in Hne. rewrite Hne, andb_false_r. reflexivity. }
  rewrite E2. subst w1. cbn. rewrite <- !app_assoc. cbn. split; [|reflexivity].
  do 4 f_equal. lia.
Qed.

(** C3 (evaluation of the code where the claim fails): the add handler
    trims [match[1]] and classifies the result, but never tests it for
    emptiness.  On a message that reads [/add], two spaces, a line break and
    more text, the pattern captures one space; it is trimmed to the empty
    string and a record holding the empty string is inserted. *)
Theorem add_blank_reaches_store (from chat : Z) :
  Js.exec_literal_dots "/add " ("/add  " +:+ String Js.LF "x") = Some " "
  /\ Js.trim " " = ""
  /\ ip_addresses (on_add from chat " " initial)
     = [if isValidCIDR "" then mkRow 1 from None (Some "") else mkRow 1 from (Some "") None]
  /\ exists r, r ∈ ip_addresses (on_add from chat " " initial)
               /\ (ip_address r = Some "" \/ cidr r = Some "").
Proof.
  split; [reflexivity|]. split; [reflexivity|].
  assert (E : ip_addresses (on_add from chat " " initial)
              = [if isValidCIDR "" then mkRow 1 from None (Some "")
                 else mkRow 1 from (Some "") None]).
  { unfold on_add. change (Js.trim " ") with "". cbn.
    destruct (isValidCIDR ""); reflexivity. }
  split; [exact E|]. rewrite E.
  eexists. split; [apply list_elem_of_here|].
  destruct (isValidCIDR ""); cbn; auto.
Qed.

(** The batch path, by contrast, drops empty lines: no candidate collected
    by the message handler is the empty string. *)
Lemma on_message_candidates_nonempty (chat : Z) (body : option string) (sent_id : Z)
      (w : World) (b : Batch) :
  batchAddData (on_message chat body sent_id w).1 !! chat = Some b ->
  Forall (fun a => a <> "") (addresses b) \/ batchAddData w !! chat = Some b.
Proof.
  unfold on_message. destruct (batchAddData w !! chat) as [b0|] eqn:Hb; cbn; [|congruence].
  destruct body as [t|]; cbn; [|rewrite Hb; auto].
  destruct (Js.truthy (Js.trim t)); cbn.
  - rewrite lookup_insert_eq. intros [= <-]. left. cbn.
    apply List.Forall_forall. intros a Ha. apply List.filter_In in Ha as [_ Ha].
    unfold Js.truthy in Ha. apply negb_true_iff, String.eqb_neq in Ha. exact Ha.
  - rewrite lookup_delete_eq. discriminate.
Qed.

(** *** Batch callbacks *)

(** C4 (evaluation of the code where the claim fails): with no pending
    batch in the conversation, the cancel branch first sends "Batch add
    cancelled." and then reads [batchAddData[chatId].messageId] of an
    undefined entry, which throws. *)
Theorem cancel_without_batch_throws (chatId from : Z) (queryId : string) (w : World) :
  batchAddData w !! chatId = None ->
  on_callback_query chatId from queryId "cancel_batch_add" w
  = (call (sendMessage chatId "Batch add cancelled." None) w, Throw "TypeError").
Proof.
  intros Hb. unfold on_callback_query, retract_and_clear. cbn. rewrite Hb. reflexivity.
Qed.

(** C6: a [confirm_batch_add] callback from a user who is not the one who
    started the pending batch changes nothing (the pending batch, the table,
    every other part of the state) and calls nothing on the bot. *)
Theorem confirm_by_other_user_ignored
        (chatId from : Z) (queryId : string) (w : World) (b : Batch) :
  batchAddData w !! chatId = Some b ->
  userId b <> from ->
  on_callback_query chatId from queryId "confirm_batch_add" w = (w, Normal).
Proof.
  intros Hb Hne. unfold on_callback_query. cbn. rewrite Hb.
  apply Z.eqb_neq in Hne. rewrite Hne. reflexivity.
Qed.

(** C10: with a pending batch in the conversation, a [cancel_batch_add]
    callback from any user sends the cancellation message, retracts the
    prompt when its id was recorded, and clears the pending batch; the acting
    user is not compared with the batch's owner, so the outcome is the same
    for every [from]. *)
Theorem cancel_by_any_user (chatId : Z) (queryId : string) (w : World) (b : Batch) :
  batchAddData w !! chatId = Some b ->
  exists w',
    (forall from : Z,
        on_callback_query chatId from queryId "cancel_batch_add" w = (w', Normal))
    /\ batchAddData w' = delete chatId (batchAddData w)
    /\ batchAddData w' !! chatId = None
    /\ calls w'
       = (calls w ++ sendMessage chatId "Batch add cancelled." None
                  :: match messageId_truthy b with
                     | Some m => [deleteMessage chatId (Js.showZ m)]
                     | None => []
                     end)%list
    /\ ip_addresses w' = ip_addresses w
    /\ listPage w' = listPage w.
Proof.
  intros Hb. unfold on_callback_query, retract_and_clear. cbn. rewrite Hb.
  eexists. split; [intros from; reflexivity|].
  destruct (messageId_truthy b); cbn; rewrite ?lookup_delete_eq, <- ?app_assoc;
    repeat split; reflexivity.
Qed.

(** *** Batch confirmation *)

Lemma fails_drop_1 (tape : list (option string)) (i : nat) :
  fails (drop 1 tape) i = fails tape (S i).
Proof. unfold fails. rewrite lookup_drop. reflexivity. Qed.

Lemma errors_take_S (tape : list (option string)) (n : nat) :
  List.length (List.filter is_error (take (S n) tape))
  = ((if fails tape 0 then 1 else 0)
     + List.length (List.filter is_error (take n (drop 1 tape))))%nat.
Proof.
  unfold fails. destruct tape as [|f fs]; cbn.
  - rewrite take_nil. reflexivity.
  - rewrite drop_0. destruct (is_error f); reflexivity.
Qed.

Lemma addEntry_cases (u : Z) (a : string) (c : bool) (w : World) :
  let '(err, w1) := addEntry u a c w in
  faults w1 = drop 1 (faults w)
  /\ listPage w1 = listPage w /\ batchAddData w1 = batchAddData w /\ calls w1 = calls w
  /\ is_error err = fails (faults w) 0
  /\ match err with
     | Some _ => ip_addresses w1 = ip_addresses w
     | None => exists r, ip_addresses w1 = (ip_addresses w ++ [r])%list /\ stored_as c u a r
     end.
Proof.
  unfold addEntry, db_call, fails.
  destruct (faults w) as [|[m|] fs] eqn:Hf; cbn; rewrite ?Hf; repeat split; auto;
    eexists; (split; [reflexivity|]); unfold stored_as; destruct c; cbn; auto.
Qed.

Lemma addPromises_spec (u : Z) (l : list string) (w : World) :
  let '(successCount, errorCount, w') := addPromises u l w in
  (successCount + errorCount = List.length l)%nat
  /\ errorCount = List.length (List.filter is_error (take (List.length l) (faults w)))
  /\ faults w' = drop (List.length l) (faults w)
  /\ listPage w' = listPage w /\ batchAddData w' = batchAddData w /\ calls w' = calls w
  /\ exists new,
       ip_addresses w' = (ip_addresses w ++ new)%list
       /\ List.length new = successCount
       /\ (forall i a, l !! i = Some a -> fails (faults w) i = false ->
                       exists r, r ∈ new /\ stored_as (isValidCIDR a) u a r)
       /\ (forall r, r ∈ new ->
                     exists i a, l !! i = Some a /\ fails (faults w) i = false
                                 /\ stored_as (isValidCIDR a) u a r).
Proof.
  revert w. induction l as [|a l IH]; intros w.
  - cbn. repeat split; auto. exists []. rewrite app_nil_r.
    repeat split; auto.
    + intros i x Hx. rewrite lookup_nil in Hx. discriminate.
    + intros r Hr. apply elem_of_nil in Hr. contradiction.
  - simpl.
    pose proof (addEntry_cases u a (isValidCIDR a) w) as H.
    destruct (addEntry u a (isValidCIDR a) w) as [err w1].
    specialize (IH w1).
    destruct (addPromises u l w1) as [[s e] w2].
    destruct H as (Hf & Hl & Hb & Hc & Herr & Hrows).
    destruct IH as (Hsum & He & Hf2 & Hl2 & Hb2 & Hc2 & new & Hnew & Hlen & Hin & Hout).
    rewrite Hf in He, Hf2, Hin, Hout.
    assert (Hdrop : faults w2 = drop (S (List.length l)) (faults w)).
    { rewrite Hf2, drop_drop. reflexivity. }
    assert (Hshift : forall r,
               (exists i x, l !! i = Some x /\ fails (drop 1 (faults w)) i = false
                            /\ stored_as (isValidCIDR x) u x r) ->
               exists i x, (a :: l) !! i = Some x /\ fails (faults w) i = false
                           /\ stored_as (isValidCIDR x) u x r).
    { intros r (i & x & Hx & Hok & Hst). exists (S i), x.
      rewrite <- fails_drop_1. auto. }
    destruct err as [m|]; cbn in Herr.
    + split; [lia|]. split; [rewrite errors_take_S, <- Herr; lia|].
      split; [exact Hdrop|]. repeat (split; [congruence|]).
      exists new. split; [congruence|]. split; [exact Hlen|]. split.
      * intros [|i] x Hx Hok; [congruence|].
        apply (Hin i x); [exact Hx | rewrite fails_drop_1; exact Hok].
      * intros r Hr. apply Hshift, Hout, Hr.
    + destruct Hrows as (r0 & Hr0 & Hst0).
      split; [lia|]. split; [rewrite errors_take_S, <- Herr; lia|].
      split; [exact Hdrop|]. repeat (split; [congruence|]).
      exists (r0 :: new). split; [rewrite Hnew, Hr0, <- app_assoc; reflexivity|].
      split; [cbn; lia|]. split.
      * intros [|i] x Hx Hok.
        -- cbn in Hx. injection Hx as <-. exists r0. split; [apply list_elem_of_here | exact Hst0].
        -- destruct (Hin i x Hx) as (r & Hr & Hst); [rewrite fails_drop_1; exact Hok|].
           exists r. split; [apply list_elem_of_further, Hr | exact Hst].
      * intros r Hr. apply elem_of_cons in Hr as [-> | Hr].
        -- exists 0%nat, a. symmetry in Herr. auto.
        -- apply Hshift, Hout, Hr.
Qed.

(** C5: confirming a pending batch of [n] candidates makes one insert
    attempt per candidate, whatever the outcome of the others ([n] entries of
    the tape are consumed); the summary is sent after the [n] attempts and
    its two counts add up to [n], the error count being the number of
    attempts that failed; and every candidate whose attempt succeeded is in
    the table afterwards, in the column its classification selects.  The
    prompt is then retracted and the pending batch cleared. *)
Theorem confirm_batch_attempts_all
        (chatId from : Z) (queryId : string) (w : World) (b : Batch) :
  batchAddData w !! chatId = Some b ->
  userId b = from ->
  let n := List.length (addresses b) in
  exists (successCount errorCount : nat) (w' : World),
    on_callback_query chatId from queryId "confirm_batch_add" w = (w', Normal)
    /\ (successCount + errorCount = n)%nat
    /\ errorCount = List.length (List.filter is_error (take n (faults w)))
    /\ faults w' = drop n (faults w)
    /\ calls w'
       = (calls w
          ++ sendMessage chatId
               ("Batch add completed. " +:+ Js.showZ (Z.of_nat successCount)
                +:+ " addresses added successfully, "
                +:+ Js.showZ (Z.of_nat errorCount) +:+ " errors.") None
          :: match messageId_truthy b with
             | Some m => [deleteMessage chatId (Js.showZ m)]
             | None => []
             end)%list
    /\ batchAddData w' = delete chatId (batchAddData w)
    /\ exists new : list Row,
         ip_addresses w' = (ip_addresses w ++ new)%list
         /\ List.length new = successCount
         /\ (forall i a, addresses b !! i = Some a -> fails (faults w) i = false ->
                         exists r, r ∈ ip_addresses w' /\ r ∈ new
                                   /\ stored_as (isValidCIDR a) from a r)
         /\ (forall r, r ∈ new ->
                       exists i a, addresses b !! i = Some a /\ fails (faults w) i = false
                                   /\ stored_as (isValidCIDR a) from a r).
Proof.
  intros Hb Hu n. subst n.
  pose proof (addPromises_spec from (addresses b) w) as H.
  unfold on_callback_query. cbn [Js.startsWith String.prefix orb String.eqb andb].
  change (Js.startsWith "prev_page_" "confirm_batch_add") with false.
  change (Js.startsWith "next_page_" "confirm_batch_add") with false.
  change (String.eqb "confirm_batch_add" "confirm_batch_add") with true.
  cbn [orb andb]. rewrite Hb. apply Z.eqb_eq in Hu. rewrite Hu.
  destruct (addPromises from (addresses b) w) as [[s e] w2].
  destruct H as (Hsum & He & Hf & Hl & Hbd & Hc & new & Hnew & Hlen & Hin & Hout).
  unfold retract_and_clear. cbn [batchAddData call]. rewrite Hbd, Hb.
  exists s, e. eexists. split; [reflexivity|].
  split; [exact Hsum|]. split; [exact He|].
  destruct (messageId_truthy b) as [m|]; cbn; rewrite Hc, Hf, Hbd, Hnew, <- ?app_assoc;
    (repeat (split; [reflexivity|])); exists new;
    (split; [reflexivity|]); (split; [exact Hlen|]); (split; [|exact Hout]);
    intros i a Ha Hok; destruct (Hin i a Ha Hok) as (r & Hr & Hst);
    exists r; (split; [apply elem_of_app; right; exact Hr|]); auto.
Qed.

(** *** Listing *)

Lemma row_lines_truthy (rows : list Row) :
  rows <> [] -> Js.truthy (Js.join (String Js.LF "") (map row_line rows)) = true.
Proof.
  destruct rows as [|r rows]; [congruence|]. intros _.
  unfold Js.join. cbn [map String.concat].
  destruct (map row_line rows); unfold row_line; reflexivity.
Qed.

Ltac button_cases :=
  repeat match goal with
    | H : exists _, _ |- _ => destruct H as (? & ? & ?)
    | H : _ ∈ _ :: _ |- _ => apply elem_of_cons in H as [-> | H]
    | H : _ ∈ [] |- _ => apply elem_of_nil in H; contradiction
    | H : text _ = _ |- _ => cbn in H; try discriminate H; clear H
    end.

(** C7: with the table readable, a list page is the ten rows from offset
    [page * 10] (fewer at the end of the table; SQLite reads a negative
    offset as 0); the message carries a "Previous" button iff [page > 0] and
    a "Next" button iff ten rows came back; its text is "No entries found."
    when no row came back and the rows' lines otherwise.  With 25 rows, page
    0 has ten rows and the "Next" button only, page 2 has five rows and the
    "Previous" button only. *)
Theorem list_page_render (chatId page : Z) (w : World) :
  faults w = [] ->
  let rows := take 10 (drop (Z.to_nat (page * 10)) (ip_addresses w)) in
  exists (body : string) (keyboard : list Button),
    listIpAddresses chatId page w = call (sendMessage chatId body (Some [keyboard])) w
    /\ select_limit_offset 10 (page * 10) (ip_addresses w) = rows
    /\ (rows = [] -> body = "No entries found.")
    /\ (rows <> [] -> body = Js.join (String Js.LF "") (map row_line rows))
    /\ ((exists b, b ∈ keyboard /\ text b = "Previous") <-> 0 < page)
    /\ ((exists b, b ∈ keyboard /\ text b = "Next") <-> List.length rows = 10%nat)
    /\ (List.length (ip_addresses w) = 25%nat -> page = 0 ->
        List.length rows = 10%nat /\ map text keyboard = ["Next"])
    /\ (List.length (ip_addresses w) = 25%nat -> page = 2 ->
        List.length rows = 5%nat /\ map text keyboard = ["Previous"]).
Proof.
  intros Hq rows. unfold listIpAddresses. rewrite (db_call_quiet w Hq).
  change (select_limit_offset 10 (page * 10) (ip_addresses w)) with rows.
  cbv zeta. do 2 eexists. split; [reflexivity|]. split; [reflexivity|].
  split; [intros ->; reflexivity|].
  split; [intros Hne; rewrite (row_lines_truthy rows Hne); reflexivity|].
  assert (Hlen25 : forall k, List.length (ip_addresses w) = 25%nat ->
                             page * 10 = Z.of_nat k ->
                             List.length rows = Nat.min 10 (25 - k)).
  { intros k H25 Hk. subst rows. rewrite length_take, length_drop, H25, Hk, Nat2Z.id.
    reflexivity. }
  destruct (Z.ltb_spec 0 page) as [Hp|Hp];
    destruct (Z.eqb_spec (Z.of_nat (List.length rows)) 10) as [Hn|Hn]; cbn [app].
  - split; [split; [intros _; exact Hp | intros _; eexists; split; [apply list_elem_of_here | reflexivity]]|].
    split; [split; [intros _; lia | intros _; eexists; split; [apply list_elem_of_further, list_elem_of_here | reflexivity]]|].
    split; [intros _ ->; lia|].
    intros H25 ->. rewrite (Hlen25 20%nat H25 eq_refl) in Hn. cbn in Hn. lia.
  - split; [split; [intros _; exact Hp | intros _; eexists; split; [apply list_elem_of_here | reflexivity]]|].
    split; [split; [intros H; button_cases | intros H; lia]|].
    split; [intros _ ->; lia|].
    intros H25 ->. split; [exact (Hlen25 20%nat H25 eq_refl) | reflexivity].
  - split; [split; [intros H; button_cases | intros H; lia]|].
    split; [split; [intros _; lia | intros _; eexists; split; [apply list_elem_of_here | reflexivity]]|].
    split; [|intros _ ->; lia].
    intros H25 ->. split; [exact (Hlen25 0%nat H25 eq_refl) | reflexivity].
  - split; [split; [intros H; button_cases | intros H; lia]|].
    split; [split; [intros H; button_cases | intros H; lia]|].
    split; [|intros _ ->; lia].
    intros H25 ->. rewrite (Hlen25 0%nat H25 eq_refl) in Hn. cbn in Hn. lia.
Qed.

(** *** Check *)

Local Abbreviation matches := (check_matches isValidCIDR contains).

Lemma check_hit_spec (input : string) (r : Row) :
  check_hit isValidCIDR contains input r = true <-> matches input r.
Proof.
  unfold check_hit, check_matches, isValidCIDR_column.
  rewrite orb_true_iff, andb_true_iff, col_eq_Some.
  destruct (cidr r) as [c|]; split.
  - intros [H|[H1 H2]]; [left; exact H | right; exists c; auto].
  - intros [H|(c' & [= <-] & H1 & H2)]; auto.
  - intros [H|[H _]]; [left; exact H | discriminate H].
  - intros [H|(c' & H & _)]; [left; exact H | discriminate H].
Qed.

Lemma check_ip_loop_miss (chat : Z) (input : string) (rows : list Row) (w : World) :
  Forall (fun x => ~ matches input x) rows ->
  check_ip_loop isValidCIDR contains chat input rows w = (false, w).
Proof.
  induction 1 as [|x rows Hx _ IH]; [reflexivity|]. cbn.
  destruct (check_hit isValidCIDR contains input x) eqn:E; [|exact IH].
  apply check_hit_spec in E. contradiction.
Qed.

Lemma check_ip_loop_first (chat : Z) (input : string) (pre post : list Row) (r : Row)
      (w : World) :
  Forall (fun x => ~ matches input x) pre ->
  matches input r ->
  check_ip_loop isValidCIDR contains chat input (pre ++ r :: post) w
  = (true, call (sendMessage chat
                   (input +:+ " is within CIDR " +:+ Js.showNullable (cidr r)
                    +:+ " from user " +:+ Js.showZ (user_id r)) None) w).
Proof.
  intros Hpre Hr. induction Hpre as [|x pre Hx _ IH]; cbn.
  - apply check_hit_spec in Hr. rewrite Hr. reflexivity.
  - destruct (check_hit isValidCIDR contains input x) eqn:E; [|exact IH].
    apply check_hit_spec in E. contradiction.
Qed.

Lemma first_match_split (input : string) (rows : list Row) :
  Forall (fun x => ~ matches input x) rows
  \/ exists pre r post, rows = (pre ++ r :: post)%list
                        /\ Forall (fun x => ~ matches input x) pre /\ matches input r.
Proof.
  induction rows as [|x rows IH]; [left; constructor|].
  destruct (check_hit isValidCIDR contains input x) eqn:E.
  - right. exists [], x, rows. apply check_hit_spec in E. auto.
  - assert (Hx : ~ matches input x).
    { intros H. apply check_hit_spec in H. congruence. }
    destruct IH as [IH|(pre & r & post & -> & Hpre & Hr)].
    + left. constructor; assumption.
    + right. exists (x :: pre), r, post. auto.
Qed.

Lemma first_match_least_id (input : string) (pre post : list Row) (r r' : Row) :
  ids_ascending (pre ++ r :: post) ->
  Forall (fun x => ~ matches input x) pre ->
  r' ∈ (pre ++ r :: post)%list -> matches input r' -> id r <= id r'.
Proof.
  unfold ids_ascending. intros Hs Hpre Hin Hm.
  apply elem_of_app in Hin as [Hin|Hin].
  - rewrite Forall_forall in Hpre. destruct (Hpre r' Hin Hm).
  - apply elem_of_cons in Hin as [->|Hin]; [lia|].
    rewrite fmap_app, fmap_cons in Hs.
    apply StronglySorted_app_1_r, StronglySorted_inv in Hs as [_ Hs].
    rewrite Forall_forall in Hs.
    assert (id r < id r'); [|lia].
    apply Hs. apply list_elem_of_fmap. exists r'. auto.
Qed.

(** C8: for an input that is not a valid CIDR, and with the table readable,
    the check handler answers with exactly one message.  If some row matches
    (its [ip_address] is the input, or its [cidr] is a valid CIDR containing
    the input), the message names the [cidr] and the owner of the first such
    row in scan order, whatever matches later; with ascending identifiers
    that row has the least id of all matching rows.  If no row matches, the
    message says the input is not within any stored CIDR.  One of the two
    cases always applies. *)
Theorem check_reports_first_match (chat : Z) (match1 : string) (w : World) :
  faults w = [] ->
  isValidCIDR (Js.trim match1) = false ->
  let input := Js.trim match1 in
  (forall pre r post,
      ip_addresses w = (pre ++ r :: post)%list ->
      Forall (fun x => ~ matches input x) pre ->
      matches input r ->
      on_check chat match1 w
      = call (sendMessage chat
                (input +:+ " is within CIDR " +:+ Js.showNullable (cidr r)
                 +:+ " from user " +:+ Js.showZ (user_id r)) None) w
      /\ (ids_ascending (ip_addresses w) ->
          forall r', r' ∈ ip_addresses w -> matches input r' -> id r <= id r'))
  /\ (Forall (fun x => ~ matches input x) (ip_addresses w) ->
      on_check chat match1 w
      = call (sendMessage chat (input +:+ " is not within any stored CIDR.") None) w)
  /\ (Forall (fun x => ~ matches input x) (ip_addresses w)
      \/ exists pre r post, ip_addresses w = (pre ++ r :: post)%list
                            /\ Forall (fun x => ~ matches input x) pre
                            /\ matches input r).
Proof.
  intros Hq Hc input. subst input. split; [|split].
  - intros pre r post Hrows Hpre Hr. split.
    + unfold on_check. rewrite (db_call_quiet w Hq), Hc, Hrows.
      rewrite (check_ip_loop_first chat _ pre post r w Hpre Hr). reflexivity.
    + rewrite Hrows. intros Hs r' Hin Hm.
      exact (first_match_least_id _ pre post r r' Hs Hpre Hin Hm).
  - intros Hnone. unfold on_check. rewrite (db_call_quiet w Hq), Hc.
    rewrite (check_ip_loop_miss chat _ _ w Hnone). reflexivity.
  - apply first_match_split.
Qed.

(** *** Delete *)

Lemma delete_filter (u : Z) (v : string) (rows : list Row) :
  List.filter (fun r => negb (where_owner_value u v v r)) rows
  = filter (fun r => ~ owned_match u v r) rows.
Proof.
  induction rows as [|r rows IH]; [reflexivity|].
  cbn [List.filter]. rewrite filter_cons, IH.
  destruct (where_owner_value u v v r) eqn:E; cbn.
  - apply where_owner_value_spec in E. rewrite decide_False by tauto. reflexivity.
  - rewrite decide_True; [reflexivity|].
    intros H. apply where_owner_value_spec in H. congruence.
Qed.

Lemma delete_changes (u : Z) (v : string) (rows : list Row) :
  (0 <? List.length (List.filter (where_owner_value u v v) rows))%nat = true
  <-> exists r, r ∈ rows /\ owned_match u v r.
Proof.
  rewrite Nat.ltb_lt. split.
  - destruct (List.filter _ rows) as [|r l] eqn:E; cbn; [lia|]. intros _.
    assert (H : List.In r (List.filter (where_owner_value u v v) rows))
      by (rewrite E; left; reflexivity).
    apply List.filter_In in H as [H1 H2]. exists r.
    split; [apply list_elem_of_In, H1 | apply where_owner_value_spec, H2].
  - intros (r & Hin & Hm).
    assert (H : List.In r (List.filter (where_owner_value u v v) rows)).
    { apply List.filter_In. split; [apply list_elem_of_In, Hin|].
      apply where_owner_value_spec, Hm. }
    destruct (List.filter _ rows); [destruct H | cbn; lia].
Qed.

(** C9: with the table writable, delete removes from the table exactly the
    rows of the acting user whose [ip_address] or [cidr] is the trimmed
    input, by string equality, and keeps every other row in place; the
    answer is "deleted successfully" iff some row was removed and "No entry
    found" iff none was, in which case the table is unchanged; the handler
    returns normally in both cases. *)
Theorem delete_exact (from chat : Z) (match1 : string) (w : World) :
  faults w = [] ->
  let input := Js.trim match1 in
  let w' := on_delete from chat match1 w in
  let removed := exists r, r ∈ ip_addresses w /\ owned_match from input r in
  handle (DeleteCmd from chat match1) w = (w', Normal)
  /\ ip_addresses w' = filter (fun r => ~ owned_match from input r) (ip_addresses w)
  /\ (calls w' = (calls w ++ [sendMessage chat ("Entry " +:+ input +:+ " deleted successfully.") None])%list
      <-> removed)
  /\ (calls w' = (calls w ++ [sendMessage chat ("No entry found for " +:+ input +:+ ".") None])%list
      <-> ~ removed)
  /\ (~ removed -> ip_addresses w' = ip_addresses w).
Proof.
  intros Hq input w' removed.
  assert (Hrows : ip_addresses w'
                  = filter (fun r => ~ owned_match from input r) (ip_addresses w)).
  { subst w'. unfold on_delete. rewrite (db_call_quiet w Hq). cbv zeta.
    fold input. rewrite <- delete_filter.
    destruct (0 <? _)%nat; reflexivity. }
  assert (Hcalls : calls w'
                   = (calls w ++ [sendMessage chat
                                    (if (0 <? List.length (List.filter (where_owner_value from input input)
                                                             (ip_addresses w)))%nat
                                     then "Entry " +:+ input +:+ " deleted successfully."
                                     else "No entry found for " +:+ input +:+ ".") None])%list).
  { subst w'. unfold on_delete. rewrite (db_call_quiet w Hq). cbv zeta. fold input.
    destruct (0 <? _)%nat; reflexivity. }
  pose proof (delete_changes from input (ip_addresses w)) as Hch. fold removed in Hch.
  split; [reflexivity|]. split; [exact Hrows|].
  destruct (0 <? _)%nat; rewrite Hcalls.
  - assert (Hr : removed) by (apply Hch; reflexivity).
    split; [tauto|]. split; [|tauto].
    split; [|tauto]. intros H. apply app_inv_head in H. discriminate H.
  - assert (Hr : ~ removed) by (intros H; apply Hch in H; discriminate H).
    split; [|split; [tauto|]].
    + split; [|tauto]. intros H. apply app_inv_head in H. discriminate H.
    + intros _. rewrite Hrows. clear -Hr. subst removed.
      induction (ip_addresses w) as [|r rows IH]; [reflexivity|].
      rewrite filter_cons_True.
      * f_equal. apply IH. intros (x & Hx & Hm). apply Hr. exists x.
        split; [apply list_elem_of_further, Hx | exact Hm].
      * intros Hm. apply Hr. exists r. split; [apply list_elem_of_here | exact Hm].
Qed.

(** *** Invariants of the table

    A property of the table survives every handler when it survives the
    three ways the handlers change the table: the insert of the add handler,
    made only after its existence query came back empty; the inserts of a
    batch confirmation, made without a query; and the delete statement. *)

Lemma check_loops_table (chat : Z) (input : string) (rows : list Row) (w : World) :
  table_of (check_cidr_loop chat input rows w).2 = table_of w
  /\ table_of (check_ip_loop isValidCIDR contains chat input rows w).2 = table_of w.
Proof.
  split; induction rows as [|r rows IH]; cbn; try reflexivity.
  - destruct (col_eq (cidr r) input); [reflexivity | exact IH].
  - destruct (check_hit isValidCIDR contains input r); [reflexivity | exact IH].
Qed.

Lemma on_check_table (chat : Z) (match1 : string) (w : World) :
  table_of (on_check chat match1 w) = table_of w.
Proof.
  unfold on_check. pose proof (db_call_table w) as H.
  destruct (db_call w) as [[m|] w0]; [exact H|]. cbn [snd] in H.
  destruct (isValidCIDR (Js.trim match1)).
  - pose proof (proj1 (check_loops_table chat (Js.trim match1) (ip_addresses w0) w0)) as H1.
    destruct (check_cidr_loop _ _ _ _) as [[|] w1]; cbn [snd] in H1; rewrite <- H, <- H1;
      reflexivity.
  - pose proof (proj2 (check_loops_table chat (Js.trim match1) (ip_addresses w0) w0)) as H1.
    destruct (check_ip_loop _ _ _ _ _ _) as [[|] w1]; cbn [snd] in H1; rewrite <- H, <- H1;
      reflexivity.
Qed.

Section TableInvariant.

Variable P : list Row -> Z -> Prop.
Variable blind : bool.

Hypothesis P_guarded_insert : forall rows seq u (v : string) (c : bool),
    P rows seq ->
    List.find (where_owner_value u v (if c then "" else v)) rows = None ->
    P (rows ++ [new_row seq u v c])%list (seq + 1).
Hypothesis P_blind_insert : blind = true -> forall rows seq u (v : string) (c : bool),
    P rows seq -> P (rows ++ [new_row seq u v c])%list (seq + 1).
Hypothesis P_delete : forall rows seq f, P rows seq -> P (List.filter f rows) seq.









End TableInvariant.

(** **** Identifiers ascend in scan order *)




(** **** Bare addresses stay unique per owner *)





End Claims.

(** ** The theorems at concrete inputs *)

(** C1 at a concrete input: user 7 adds [10.0.0.0/8] twice to the empty
    table. *)
Lemma add_cidr_twice_stores_two_witness :
  let w2 := on_add IPv4.isValidCIDR 7 1 "10.0.0.0/8"
              (on_add IPv4.isValidCIDR 7 1 "10.0.0.0/8" initial) in
  ip_addresses w2
  = [mkRow 1 7 None (Some "10.0.0.0/8"); mkRow 2 7 None (Some "10.0.0.0/8")]
  /\ calls w2
     = [sendMessage 1 "CIDR 10.0.0.0/8 added successfully." None;
        sendMessage 1 "CIDR 10.0.0.0/8 added successfully." None].
Proof.
  apply (add_cidr_twice_stores_two IPv4.isValidCIDR 7 1 "10.0.0.0/8" initial).
  - reflexivity.
  - reflexivity.
  - vm_compute. discriminate.
  - reflexivity.
Defined.

(** C2 (evaluation of the code where the claim fails): the confirmation
    branch calls [addEntry] for every candidate without the existence query
    of the add handler.  User 7 confirms a batch that lists [1.2.3.4] twice;
    both lines are inserted and the owner holds the value twice. *)
Lemma batch_confirm_stores_duplicates :
  ~ values_unique (ip_addresses (run IPv4.isValidCIDR IPv4.contains Sample.twice initial)).
Proof.
  change (~ NoDup [(7, Some "1.2.3.4", @None string); (7, Some "1.2.3.4", None)]).
  intros H. apply NoDup_cons in H as [H _]. apply H, list_elem_of_here.
Qed.


Lemma cancel_without_batch_throws_witness :
  on_callback_query IPv4.isValidCIDR 1 7 "q" "cancel_batch_add" initial
  = (call (sendMessage 1 "Batch add cancelled." None) initial, Throw "TypeError").
Proof.
  apply (cancel_without_batch_throws IPv4.isValidCIDR 1 7 "q" initial).
  reflexivity.
Defined.

(** Five candidates, two failing writes: "3 addresses added successfully, 2
    errors", and the three others are in the table. *)
Lemma confirm_batch_attempts_all_witness :
  exists (successCount errorCount : nat) (w' : World),
    on_callback_query IPv4.isValidCIDR 1 7 "q" "confirm_batch_add" Sample.pending
    = (w', Normal)
    /\ (successCount + errorCount = 5)%nat
    /\ errorCount = 2%nat
    /\ List.length (ip_addresses w') = successCount
    /\ exists r, r ∈ ip_addresses w' /\ stored_as false 7 "9.9.9.9" r.
Proof.
  destruct (confirm_batch_attempts_all IPv4.isValidCIDR 1 7 "q" Sample.pending Sample.batch
              eq_refl eq_refl)
    as (s & e & w' & Hrun & Hsum & He & _ & _ & _ & new & Hnew & Hlen & Hin & _).
  exists s, e, w'. split; [exact Hrun|]. split; [exact Hsum|]. split; [exact He|].
  split; [rewrite Hnew; exact Hlen|].
  destruct (Hin 4%nat "9.9.9.9" eq_refl eq_refl) as (r & Hr & _ & Hst).
  exists r. split; [exact Hr | exact Hst].
Defined.

Lemma confirm_by_other_user_ignored_witness :
  on_callback_query IPv4.isValidCIDR 1 8 "q" "confirm_batch_add" Sample.pending
  = (Sample.pending, Normal).
Proof.
  apply (confirm_by_other_user_ignored IPv4.isValidCIDR 1 8 "q" Sample.pending Sample.batch).
  - reflexivity.
  - vm_compute. discriminate.
Defined.

(** 25 rows: page 0 and page 2. *)
Lemma list_page_render_witness :
  (exists body keyboard,
      listIpAddresses 1 0 (Sample.table 25)
      = call (sendMessage 1 body (Some [keyboard])) (Sample.table 25)
      /\ map text keyboard = ["Next"])
  /\ (exists body keyboard,
         listIpAddresses 1 2 (Sample.table 25)
         = call (sendMessage 1 body (Some [keyboard])) (Sample.table 25)
         /\ map text keyboard = ["Previous"]).
Proof.
  split.
  - destruct (list_page_render 1 0 (Sample.table 25) eq_refl)
      as (body & kb & Hrun & _ & _ & _ & _ & _ & H0 & _).
    exists body, kb. split; [exact Hrun | exact (proj2 (H0 eq_refl eq_refl))].
  - destruct (list_page_render 1 2 (Sample.table 25) eq_refl)
      as (body & kb & Hrun & _ & _ & _ & _ & _ & _ & H2).
    exists body, kb. split; [exact Hrun | exact (proj2 (H2 eq_refl eq_refl))].
Defined.

(** Two stored blocks contain [10.1.2.3]; the answer names the first. *)
Lemma check_reports_first_match_witness :
  on_check IPv4.isValidCIDR IPv4.contains 1 "10.1.2.3" Sample.nested
  = call (sendMessage 1 "10.1.2.3 is within CIDR 10.0.0.0/8 from user 7" None) Sample.nested
  /\ (forall r', r' ∈ ip_addresses Sample.nested ->
                 check_matches IPv4.isValidCIDR IPv4.contains "10.1.2.3" r' -> 1 <= id r').
Proof.
  destruct (proj1 (check_reports_first_match IPv4.isValidCIDR IPv4.contains 1 "10.1.2.3"
                     Sample.nested eq_refl eq_refl)
              [] Sample.wide [Sample.narrow] eq_refl (Forall_nil_2 _))
    as [Hmsg Hleast].
  - right. exists "10.0.0.0/8". repeat split.
  - split; [exact Hmsg|]. apply Hleast.
    unfold ids_ascending. cbn. repeat constructor.
Defined.

(** Users 7 and 8 both hold [1.2.3.4]; user 7 deletes it. *)
Lemma delete_exact_witness :
  ip_addresses (on_delete 7 1 "1.2.3.4" Sample.shared) = [mkRow 2 8 (Some "1.2.3.4") None]
  /\ calls (on_delete 7 1 "1.2.3.4" Sample.shared)
     = [sendMessage 1 "Entry 1.2.3.4 deleted successfully." None].
Proof.
  destruct (delete_exact IPv4.isValidCIDR IPv4.contains 7 1 "1.2.3.4" Sample.shared eq_refl)
    as (_ & Hrows & Hdel & _ & _).
  split.
  - rewrite Hrows. reflexivity.
  - apply Hdel. exists (mkRow 1 7 (Some "1.2.3.4") None).
    split; [apply list_elem_of_here | split; [reflexivity | left; reflexivity]].
Defined.

(** User 8 cancels the batch of user 7. *)
Lemma cancel_by_any_user_witness :
  exists w',
    on_callback_query IPv4.isValidCIDR 1 8 "q" "cancel_batch_add" Sample.pending = (w', Normal)
    /\ batchAddData w' !! 1 = None
    /\ calls w' = [sendMessage 1 "Batch add cancelled." None; deleteMessage 1 "100"].
Proof.
  destruct (cancel_by_any_user IPv4.isValidCIDR 1 "q" Sample.pending Sample.batch eq_refl)
    as (w' & Hrun & _ & Hgone & Hcalls & _).
  exists w'. split; [exact (Hrun 8) | split; [exact Hgone | exact Hcalls]].
Defined.

(** ** Further properties of the handlers *)

(** *** Page numbers survive the trip through a button *)

Lemma pretty_N_char_digit (x : N) :
  (x < 10)%N ->
  isDigit (pretty_N_char x) = true
  /\ Js.digitValue (pretty_N_char x) = Some (Z.of_N x).
Proof.
  intros Hx.
  assert (x = 0 \/ x = 1 \/ x = 2 \/ x = 3 \/ x = 4 \/ x = 5 \/ x = 6 \/ x = 7
          \/ x = 8 \/ x = 9)%N as H by lia.
  repeat (destruct H as [->|H]; [split; reflexivity|]). subst x. split; reflexivity.
Qed.

Lemma pretty_N_go_digits (x : N) (s : string) :
  string_all isDigit s = true -> string_all isDigit (pretty_N_go x s) = true.
Proof.
  revert s. induction (N.lt_wf_0 x) as [x _ IH]. intros s Hs.
  destruct (N.eq_dec x 0) as [->|Hx]; [exact Hs|].
  rewrite pretty_N_go_step by lia. apply IH; [apply N.div_lt; lia|].
  cbn [string_all]. rewrite Hs, andb_true_r.
  apply pretty_N_char_digit, N.mod_lt. lia.
Qed.

Lemma digits_pretty_N_go (x : N) :
  (0 < x)%N ->
  exists k : Z, 0 <= k /\ forall s acc,
      Js.digits 10 acc (pretty_N_go x s)
      = Js.digits 10 (Some (default 0 acc * 10 ^ k + Z.of_N x)) s.
Proof.
  induction (N.lt_wf_0 x) as [x _ IH]. intros Hx.
  assert (Hmod : (x `mod` 10 < 10)%N) by (apply N.mod_lt; lia).
  destruct (pretty_N_char_digit _ Hmod) as [_ Hd].
  assert (Hdm : Z.of_N x = 10 * Z.of_N (x `div` 10) + Z.of_N (x `mod` 10)).
  { rewrite (N.div_mod x 10) at 1 by lia. lia. }
  destruct (N.eq_dec (x `div` 10) 0) as [H0|H0].
  - exists 1. split; [lia|]. intros s acc.
    rewrite pretty_N_go_step by exact Hx. rewrite H0, pretty_N_go_0.
    cbn [Js.digits]. rewrite Hd.
    replace (Z.of_N (x `mod` 10) <? 10) with true by (symmetry; apply Z.ltb_lt; lia).
    f_equal. f_equal. rewrite H0 in Hdm. lia.
  - destruct (IH (x `div` 10)%N) as (k & Hk & IHk); [apply N.div_lt; lia | lia |].
    exists (k + 1). split; [lia|]. intros s acc.
    rewrite pretty_N_go_step by exact Hx. rewrite IHk.
    cbn [Js.digits]. rewrite Hd.
    replace (Z.of_N (x `mod` 10) <? 10) with true by (symmetry; apply Z.ltb_lt; lia).
    f_equal. f_equal. cbn [default]. rewrite Z.pow_add_r, Z.pow_1_r, Hdm by lia.
    unfold Datatypes.id. ring.
Qed.

Lemma unsignedInt_digits (s : string) :
  string_all isDigit s = true -> Js.unsignedInt s = Js.digits 10 None s.
Proof.
  destruct s as [|c [|d s]].
  - reflexivity.
  - intros _. unfold Js.unsignedInt.
    destruct c as [[] [] [] [] [] [] [] []]; reflexivity.
  - cbn [string_all]. intros H.
    apply andb_true_iff in H as [_ H]. apply andb_true_iff in H as [Hd _].
    unfold Js.unsignedInt.
    destruct c as [[] [] [] [] [] [] [] []]; try reflexivity;
      destruct d as [[] [] [] [] [] [] [] []]; try reflexivity; discriminate Hd.
Qed.

Lemma unsignedInt_pretty_pos (x : positive) :
  Js.unsignedInt (pretty (N.pos x)) = Some (Z.pos x)
  /\ string_all isDigit (pretty (N.pos x)) = true
  /\ pretty (N.pos x) <> "".
Proof.
  unfold pretty, pretty_N. rewrite decide_False by discriminate.
  assert (Hall : string_all isDigit (pretty_N_go (N.pos x) "") = true)
    by (apply pretty_N_go_digits; reflexivity).
  split; [|split; [exact Hall|]].
  - rewrite (unsignedInt_digits _ Hall).
    destruct (digits_pretty_N_go (N.pos x)) as (k & _ & Hk); [reflexivity|].
    rewrite Hk. reflexivity.
  - rewrite pretty_N_go_step by reflexivity. intros H.
    assert (Hlen : forall y t, t <> "" -> pretty_N_go y t <> "").
    { intros y. induction (N.lt_wf_0 y) as [y _ IHy]. intros t Ht.
      destruct (N.eq_dec y 0) as [->|Hy]; [exact Ht|].
      rewrite pretty_N_go_step by lia. apply IHy; [apply N.div_lt; lia|discriminate]. }
    eapply Hlen; [|exact H]. discriminate.
Qed.

Lemma trimStart_nonblank (c : ascii) (s : string) :
  Js.isWhiteSpace c = false -> Js.trimStart (String c s) = String c s.
Proof. intros H. cbn. rewrite H. reflexivity. Qed.

Lemma digit_facts (c : ascii) :
  isDigit c = true ->
  Js.isWhiteSpace c = false /\ c <> "-"%char /\ c <> "+"%char /\ c <> "_"%char.
Proof.
  destruct c as [[] [] [] [] [] [] [] []]; intros H; try discriminate H;
    repeat split; discriminate.
Qed.

(** [parseInt] reads back the decimal text of every integer. *)
Lemma parseInt_showZ (z : Z) : Js.parseInt (Js.showZ z) = Some z.
Proof.
  unfold Js.showZ, pretty, pretty_Z. destruct z as [|x|x].
  - reflexivity.
  - destruct (unsignedInt_pretty_pos x) as (Hu & Hall & Hne).
    change (pretty x) with (pretty (N.pos x)).
    destruct (pretty (N.pos x)) as [|c s] eqn:E; [congruence|].
    cbn [string_all] in Hall. apply andb_true_iff in Hall as [Hc _].
    destruct (digit_facts c Hc) as (Hw & Hm & Hp & _).
    unfold Js.parseInt. rewrite (trimStart_nonblank c s Hw).
    destruct c as [[] [] [] [] [] [] [] []]; try exact Hu; congruence.
  - destruct (unsignedInt_pretty_pos x) as (Hu & _ & _).
    change (Js.parseInt (String "-" (pretty (N.pos x))) = Some (Z.neg x)).
    unfold Js.parseInt. rewrite trimStart_nonblank by reflexivity.
    rewrite Hu. reflexivity.
Qed.

Lemma startsWith_append (p s : string) : Js.startsWith p (p +:+ s) = true.
Proof.
  unfold Js.startsWith. induction p as [|a p IH].
  - destruct s; reflexivity.
  - change (String a p +:+ s) with (String a (p +:+ s)). cbn [String.prefix].
    destruct (ascii_dec a a); [exact IH | congruence].
Qed.

Lemma split_no_separator (sep : ascii) (s : string) :
  string_all (fun c => negb (Ascii.eqb c sep)) s = true -> Js.split sep s = [s].
Proof.
  induction s as [|c s IH]; [reflexivity|]. cbn [string_all Js.split].
  intros H. apply andb_true_iff in H as [Hc Hs].
  apply negb_true_iff in Hc. rewrite Hc, (IH Hs). reflexivity.
Qed.

Lemma showZ_no_underscore (z : Z) :
  string_all (fun c => negb (Ascii.eqb c "_")) (Js.showZ z) = true.
Proof.
  assert (Hd : forall s, string_all isDigit s = true ->
                         string_all (fun c => negb (Ascii.eqb c "_")) s = true).
  { induction s as [|c s IH]; [reflexivity|]. cbn [string_all]. intros H.
    apply andb_true_iff in H as [Hc Hs]. rewrite (IH Hs), andb_true_r.
    destruct (digit_facts c Hc) as (_ & _ & _ & Hu).
    apply negb_true_iff, Ascii.eqb_neq, Hu. }
  unfold Js.showZ, pretty, pretty_Z. destruct z as [|x|x].
  - reflexivity.
  - apply Hd, unsignedInt_pretty_pos.
  - change (string_all (fun c => negb (Ascii.eqb c "_")) (String "-" (pretty (N.pos x))) = true).
    cbn [string_all]. rewrite Hd by apply unsignedInt_pretty_pos. reflexivity.
Qed.

Lemma page_token_decodes (page : Z) :
  Js.split "_" ("prev_page_" +:+ Js.showZ page) !! 2%nat ≫= Js.parseInt = Some page
  /\ Js.split "_" ("next_page_" +:+ Js.showZ page) !! 2%nat ≫= Js.parseInt = Some page.
Proof.
  split.
  - change (Js.split "_" ("prev_page_" +:+ Js.showZ page))
      with ("prev" :: "page" :: Js.split "_" (Js.showZ page)).
    rewrite (split_no_separator "_" _ (showZ_no_underscore page)).
    apply parseInt_showZ.
  - change (Js.split "_" ("next_page_" +:+ Js.showZ page))
      with ("next" :: "page" :: Js.split "_" (Js.showZ page)).
    rewrite (split_no_separator "_" _ (showZ_no_underscore page)).
    apply parseInt_showZ.
Qed.

Lemma listIpAddresses_quiet (chatId page : Z) (w : World) :
  faults w = [] ->
  listIpAddresses chatId page w
  = call (sendMessage chatId
            (if Js.truthy (Js.join (String Js.LF "") (map row_line (page_rows page (ip_addresses w))))
             then Js.join (String Js.LF "") (map row_line (page_rows page (ip_addresses w)))
             else "No entries found.")
            (Some [((if 0 <? page
                     then [mkButton "Previous" ("prev_page_" +:+ Js.showZ page)] else [])
                    ++ (if Z.of_nat (List.length (page_rows page (ip_addresses w))) =? 10
                        then [mkButton "Next" ("next_page_" +:+ Js.showZ page)] else []))%list])) w.
Proof. intros Hq. unfold listIpAddresses. rewrite (db_call_quiet w Hq). reflexivity. Qed.

(** *** Trimming *)

Lemma trimStart_head (s : string) :
  Js.trimStart s = "" \/ exists c s', Js.trimStart s = String c s' /\ Js.isWhiteSpace c = false.
Proof.
  induction s as [|c s IH]; [left; reflexivity|]. cbn [Js.trimStart].
  destruct (Js.isWhiteSpace c) eqn:E; [exact IH|]. right. eauto.
Qed.

Lemma trimEnd_head (c : ascii) (s : string) :
  Js.isWhiteSpace c = false -> exists t, Js.trimEnd (String c s) = String c t.
Proof.
  intros Hc. cbn [Js.trimEnd]. destruct (Js.trimEnd s); rewrite ?Hc; eauto.
Qed.

Lemma trimEnd_idem (s : string) : Js.trimEnd (Js.trimEnd s) = Js.trimEnd s.
Proof.
  induction s as [|c s IH]; [reflexivity|]. cbn [Js.trimEnd].
  destruct (Js.trimEnd s) as [|d t] eqn:E.
  - destruct (Js.isWhiteSpace c) eqn:Hc; [reflexivity|]. cbn. rewrite Hc. reflexivity.
  - cbn [Js.trimEnd] in IH |- *. rewrite IH. reflexivity.
Qed.

Lemma trim_head (s : string) :
  Js.trim s = "" \/ exists c t, Js.trim s = String c t /\ Js.isWhiteSpace c = false.
Proof.
  unfold Js.trim. destruct (trimStart_head s) as [->|(c & s' & -> & Hc)]; [left; reflexivity|].
  right. destruct (trimEnd_head c s' Hc) as [t Ht]. eauto.
Qed.

Lemma trim_idem (s : string) : Js.trim (Js.trim s) = Js.trim s.
Proof.
  destruct (trim_head s) as [->|(c & t & E & Hc)]; [reflexivity|].
  unfold Js.trim at 1. rewrite E. cbn [Js.trimStart]. rewrite Hc, <- E.
  unfold Js.trim. apply trimEnd_idem.
Qed.

Lemma trim_keeps (p : ascii -> bool) (s : string) :
  string_all p s = true -> string_all p (Js.trim s) = true.
Proof.
  assert (Hs : forall x, string_all p x = true -> string_all p (Js.trimStart x) = true).
  { induction x as [|c x IH]; [auto|]. cbn [Js.trimStart string_all]. intros H.
    destruct (Js.isWhiteSpace c); [|exact H]. apply andb_true_iff in H as [_ H]. auto. }
  assert (He : forall x, string_all p x = true -> string_all p (Js.trimEnd x) = true).
  { induction x as [|c x IH]; [auto|]. cbn [Js.trimEnd string_all]. intros H.
    apply andb_true_iff in H as [Hc H]. specialize (IH H).
    destruct (Js.trimEnd x); [destruct (Js.isWhiteSpace c); cbn; rewrite ?Hc; reflexivity|].
    cbn [string_all] in *. rewrite Hc. exact IH. }
  intros H. apply He, Hs, H.
Qed.

Lemma split_lines (sep : ascii) (s : string) :
  Forall (fun l => string_all (fun c => negb (Ascii.eqb c sep)) l = true) (Js.split sep s)
  /\ exists h t, Js.split sep s = h :: t
                 /\ forall c s', s = String c s' -> Ascii.eqb c sep = false ->
                                 exists h', h = String c h'.
Proof.
  induction s as [|c s (IHf & h & t & IHs & _)].
  - split; [repeat constructor|]. exists "", []. split; [reflexivity|]. discriminate.
  - cbn [Js.split]. destruct (Ascii.eqb c sep) eqn:E.
    + split; [constructor; [reflexivity | exact IHf]|].
      exists "", (Js.split sep s). split; [reflexivity|]. intros c' s' [= <- <-]. congruence.
    + rewrite IHs in IHf |- *. apply Forall_cons in IHf as [Hh Ht].
      split; [constructor; [cbn [string_all]; rewrite E, Hh; reflexivity | exact Ht]|].
      exists (String c h), t. split; [reflexivity|]. intros c' s' [= <- <-] _. eauto.
Qed.

(** *** The argument of a command *)

Lemma exec_unfold (lit s : string) :
  Js.exec_literal_dots lit s
  = match match Js.after_literal lit s with
          | Some rest => match Js.dots rest with
                         | EmptyString => None
                         | cap => Some cap
                         end
          | None => None
          end with
    | Some cap => Some cap
    | None => match s with
              | EmptyString => None
              | String _ s' => Js.exec_literal_dots lit s'
              end
    end.
Proof. destruct s; reflexivity. Qed.

Lemma length_append (a b : string) :
  String.length (a +:+ b) = (String.length a + String.length b)%nat.
Proof.
  induction a as [|c a IH]; [reflexivity|].
  change (String c a +:+ b) with (String c (a +:+ b)). cbn [String.length].
  rewrite IH. reflexivity.
Qed.

Lemma after_literal_append (lit s : string) : Js.after_literal lit (lit +:+ s) = Some s.
Proof.
  induction lit as [|a lit IH]; [destruct s; reflexivity|].
  change (String a lit +:+ s) with (String a (lit +:+ s)). cbn [Js.after_literal].
  rewrite Ascii.eqb_refl. exact IH.
Qed.

Lemma after_literal_inv (lit s rest : string) :
  Js.after_literal lit s = Some rest -> s = lit +:+ rest.
Proof.
  revert s. induction lit as [|a lit IH]; intros s.
  - destruct s; cbn [Js.after_literal]; intros [= <-]; reflexivity.
  - destruct s as [|b s]; cbn [Js.after_literal]; [discriminate|].
    destruct (Ascii.eqb a b) eqn:E; [|discriminate]. apply Ascii.eqb_eq in E as ->.
    intros H. rewrite (IH s H). reflexivity.
Qed.

Lemma dots_spec (s : string) :
  string_all (fun c => negb (Js.isLineTerminator c)) (Js.dots s) = true
  /\ exists post, s = Js.dots s +:+ post
                  /\ (post = "" \/ exists c p, post = String c p /\ Js.isLineTerminator c = true).
Proof.
  induction s as [|c s (IH1 & post & IH2 & IH3)].
  - split; [reflexivity|]. exists "". auto.
  - cbn [Js.dots]. destruct (Js.isLineTerminator c) eqn:E.
    + split; [reflexivity|]. exists (String c s). split; [reflexivity|]. right. eauto.
    + split; [cbn [string_all]; rewrite E, IH1; reflexivity|].
      exists post. split; [|exact IH3].
      change (String c (Js.dots s) +:+ post) with (String c (Js.dots s +:+ post)).
      rewrite <- IH2. reflexivity.
Qed.

Lemma dots_run (v tail : string) :
  string_all (fun c => negb (Js.isLineTerminator c)) v = true ->
  tail = "" \/ (exists c p, tail = String c p /\ Js.isLineTerminator c = true) ->
  Js.dots (v +:+ tail) = v.
Proof.
  intros Hv Ht. induction v as [|c v IH].
  - destruct Ht as [->|(c & p & -> & Hc)]; [reflexivity|].
    change ("" +:+ String c p) with (String c p). cbn [Js.dots]. rewrite Hc. reflexivity.
  - cbn [string_all] in Hv. apply andb_true_iff in Hv as [Hc Hv].
    apply negb_true_iff in Hc.
    change (String c v +:+ tail) with (String c (v +:+ tail)). cbn [Js.dots].
    rewrite Hc, (IH Hv). reflexivity.
Qed.

(** X20: the argument that the patterns [/\/add (.+)/], [/\/delete (.+)/]
    and [/\/check (.+)/] hand to their handlers.  Whatever is captured is a
    non-empty run of characters without a line break that follows the
    literal in the text and stops at a line break or at the end.  A text that
    starts with the literal and a non-empty single-line argument yields that
    argument, surrounding spaces included; a text that is no longer than the
    literal yields no match, so the handler is not called. *)
Theorem command_argument (lit : string) :
  (forall s cap, Js.exec_literal_dots lit s = Some cap ->
                 cap <> ""
                 /\ string_all (fun c => negb (Js.isLineTerminator c)) cap = true
                 /\ exists pre post,
                      s = pre +:+ lit +:+ cap +:+ post
                      /\ (post = "" \/ exists c p, post = String c p
                                                   /\ Js.isLineTerminator c = true))
  /\ (forall v tail,
         v <> "" ->
         string_all (fun c => negb (Js.isLineTerminator c)) v = true ->
         tail = "" \/ (exists c p, tail = String c p /\ Js.isLineTerminator c = true) ->
         Js.exec_literal_dots lit (lit +:+ v +:+ tail) = Some v)
  /\ (lit <> "" ->
      forall s, (String.length s <= String.length lit)%nat ->
                Js.exec_literal_dots lit s = None).
Proof.
  split; [|split].
  - induction s as [|a s IH]; intros cap; rewrite exec_unfold.
    + destruct (Js.after_literal lit "") as [rest|] eqn:E; [|discriminate].
      apply after_literal_inv in E. destruct lit; [|discriminate E].
      change ("" = rest) in E. subst rest. discriminate.
    + destruct (Js.after_literal lit (String a s)) as [rest|] eqn:E.
      * destruct (Js.dots rest) as [|d cap'] eqn:Ed.
        -- intros H. destruct (IH cap H) as (H1 & H2 & pre & post & H3 & H4).
           repeat split; try assumption. exists (String a pre), post.
           split; [|exact H4]. rewrite H3. reflexivity.
        -- intros [= <-]. destruct (dots_spec rest) as (Hclean & post & Hpost & Hend).
           rewrite Ed in Hclean, Hpost. split; [discriminate|]. split; [exact Hclean|].
           exists "", post. split; [|exact Hend].
           apply after_literal_inv in E. rewrite E, Hpost. reflexivity.
      * intros H. destruct (IH cap H) as (H1 & H2 & pre & post & H3 & H4).
        repeat split; try assumption. exists (String a pre), post.
        split; [|exact H4]. rewrite H3. reflexivity.
  - intros v tail Hne Hv Ht. rewrite exec_unfold, after_literal_append, (dots_run v tail Hv Ht).
    destruct v; [congruence | reflexivity].
  - intros Hlit.
    assert (Hnone : forall s, (String.length s <= String.length lit)%nat ->
                              Js.exec_literal_dots lit s = None).
    { induction s as [|b s IHs]; intros Hlen; rewrite exec_unfold.
      - destruct (Js.after_literal lit "") as [rest|] eqn:E; [|reflexivity].
        apply after_literal_inv in E. destruct lit; [congruence | discriminate E].
      - destruct (Js.after_literal lit (String b s)) as [rest|] eqn:E.
        + apply after_literal_inv in E.
          assert (rest = "") as ->.
          { apply (f_equal String.length) in E. rewrite length_append in E.
            destruct rest; [reflexivity | cbn in E, Hlen; lia]. }
          cbn [Js.dots]. apply IHs. cbn in Hlen. lia.
        + apply IHs. cbn in Hlen. lia. }
    exact Hnone.
Qed.

Lemma candidates_clean (t : string) : Forall clean_candidate (candidates t).
Proof.
  unfold candidates. apply Forall_forall. intros a Ha.
  apply list_elem_of_In, List.filter_In in Ha as [Ha Htruthy].
  apply List.in_map_iff in Ha as (l & <- & Hl).
  unfold clean_candidate. split; [|split].
  - unfold Js.truthy in Htruthy. apply negb_true_iff, String.eqb_neq in Htruthy. exact Htruthy.
  - apply trim_idem.
  - apply trim_keeps.
    pose proof (proj1 (split_lines Js.LF (Js.trim t))) as Hall.
    rewrite Forall_forall in Hall. apply Hall, list_elem_of_In, Hl.
Qed.

Lemma candidates_nonempty (t : string) : Js.trim t <> "" -> candidates t <> [].
Proof.
  intros Hne. destruct (trim_head t) as [E|(c & r & E & Hc)]; [congruence|].
  unfold candidates. rewrite E.
  destruct (split_lines Js.LF (String c r)) as (_ & h & tl & Hs & Hh).
  destruct (Hh c r eq_refl) as [h' ->].
  { destruct (Ascii.eqb c Js.LF) eqn:Ec; [|reflexivity].
    apply Ascii.eqb_eq in Ec. subst c. discriminate Hc. }
  rewrite Hs. cbn [map List.filter].
  assert (Ht : Js.truthy (Js.trim (String c h')) = true).
  { unfold Js.trim. cbn [Js.trimStart]. rewrite Hc.
    destruct (trimEnd_head c h' Hc) as [x ->]. reflexivity. }
  rewrite Ht. discriminate.
Qed.

Section Further.

Variable isValidCIDR : string -> bool.
Variable contains : string -> string -> bool.

Local Abbreviation on_add := (on_add isValidCIDR).
Local Abbreviation on_callback_query := (on_callback_query isValidCIDR).
Local Abbreviation on_check := (on_check isValidCIDR contains).
Local Abbreviation handle := (handle isValidCIDR contains).
Local Abbreviation run := (run isValidCIDR contains).

(** X1: every button that a list page carries leads, when pressed, to the
    neighbouring page: the token [next_page_<page>] or [prev_page_<page>] is
    split and parsed back to [page], the cursor of the conversation is set to
    [page + 1] for "Next" and [page - 1] for "Previous", the query is
    answered and that page is rendered.  From a page that is not negative the
    buttons never lead to a negative page. *)
Theorem page_buttons_turn_pages (chatId page : Z) (w : World) (b : Button) :
  faults w = [] ->
  b ∈ last_keyboard (listIpAddresses chatId page w) ->
  let target := if String.eqb (text b) "Next" then page + 1 else page - 1 in
  (0 <= page -> 0 <= target)
  /\ forall (from : Z) (queryId : string) (w2 : World),
      on_callback_query chatId from queryId (callback_data b) w2
      = (listIpAddresses chatId target
           (call (answerCallbackQuery queryId)
              (set_listPage (<[chatId := target]> (listPage w2)) w2)), Normal)
      /\ listPage (on_callback_query chatId from queryId (callback_data b) w2).1 !! chatId
         = Some target.
Proof.
  intros Hq Hb target. rewrite (listIpAddresses_quiet chatId page w Hq) in Hb.
  unfold last_keyboard in Hb. cbn [calls call] in Hb. rewrite last_snoc in Hb.
  assert (Hcase : (b = mkButton "Previous" ("prev_page_" +:+ Js.showZ page) /\ 0 < page)
                  \/ b = mkButton "Next" ("next_page_" +:+ Js.showZ page)).
  { destruct (Z.ltb_spec 0 page); destruct (_ =? 10); cbn in Hb;
      repeat (apply elem_of_cons in Hb as [Hb|Hb]); try (apply elem_of_nil in Hb; contradiction);
      auto. }
  assert (Hcursor : forall c p w0, listPage (listIpAddresses c p w0) = listPage w0).
  { intros c p w0. unfold listIpAddresses, db_call.
    destruct (faults w0) as [|[m|] fs]; reflexivity. }
  destruct Hcase as [[-> Hpos]| ->]; subst target; cbn [text callback_data String.eqb Ascii.eqb Bool.eqb].
  - split; [lia|]. intros from queryId w2.
    assert (E : on_callback_query chatId from queryId ("prev_page_" +:+ Js.showZ page) w2
                = (listIpAddresses chatId (page - 1)
                     (call (answerCallbackQuery queryId)
                        (set_listPage (<[chatId := page - 1]> (listPage w2)) w2)), Normal)).
    { unfold on_callback_query.
      rewrite (startsWith_append "prev_page_").
      cbn [orb]. rewrite (proj1 (page_token_decodes page)). reflexivity. }
    rewrite E. split; [reflexivity|]. cbn [fst]. rewrite Hcursor. cbn.
    apply lookup_insert_eq.
  - split; [lia|]. intros from queryId w2.
    assert (E : on_callback_query chatId from queryId ("next_page_" +:+ Js.showZ page) w2
                = (listIpAddresses chatId (page + 1)
                     (call (answerCallbackQuery queryId)
                        (set_listPage (<[chatId := page + 1]> (listPage w2)) w2)), Normal)).
    { unfold on_callback_query.
      change (Js.startsWith "prev_page_" ("next_page_" +:+ Js.showZ page)) with false.
      rewrite (startsWith_append "next_page_").
      cbn [orb]. rewrite (proj2 (page_token_decodes page)). reflexivity. }
    rewrite E. split; [reflexivity|]. cbn [fst]. rewrite Hcursor. cbn.
    apply lookup_insert_eq.
Qed.

(** *** Pages *)

Lemma page_rows_nat (p : nat) (t : list Row) :
  page_rows (Z.of_nat p) t = take 10 (drop (10 * p) t).
Proof.
  unfold page_rows, select_limit_offset. cbn [Z.ltb Z.compare].
  replace (Z.to_nat (Z.of_nat p * 10)) with (10 * p)%nat by lia. reflexivity.
Qed.

Lemma list_body_quiet (chatId page : Z) (w : World) :
  faults w = [] ->
  last_body (listIpAddresses chatId page w)
  = Some (match page_rows page (ip_addresses w) with
          | [] => "No entries found."
          | rows => Js.join (String Js.LF "") (map row_line rows)
          end).
Proof.
  intros Hq. rewrite (listIpAddresses_quiet chatId page w Hq).
  unfold last_body. cbn [calls call]. rewrite last_snoc.
  destruct (page_rows page (ip_addresses w)) as [|r rows] eqn:E; [reflexivity|].
  rewrite row_lines_truthy by discriminate. reflexivity.
Qed.

(** X2: the pages of the list command tile the table.  Page [p] shows the
    lines of the rows at positions [10 p] to [10 p + 9]; pages [0] to [n - 1]
    put one after the other are the first [10 n] rows in table order, so once
    [10 n] reaches the size of the table every row has been shown exactly
    once and in order. *)
Theorem pages_tile_table (chatId : Z) (w : World) (n : nat) :
  faults w = [] ->
  (forall p : nat,
      last_body (listIpAddresses chatId (Z.of_nat p) w)
      = Some (match take 10 (drop (10 * p) (ip_addresses w)) with
              | [] => "No entries found."
              | rows => Js.join (String Js.LF "") (map row_line rows)
              end))
  /\ List.concat (map (fun p => page_rows (Z.of_nat p) (ip_addresses w)) (seq 0 n))
     = take (10 * n) (ip_addresses w)
  /\ (List.length (ip_addresses w) <= 10 * n ->
      List.concat (map (fun p => page_rows (Z.of_nat p) (ip_addresses w)) (seq 0 n))
      = ip_addresses w)%nat.
Proof.
  intros Hq.
  assert (Htile : List.concat (map (fun p => page_rows (Z.of_nat p) (ip_addresses w)) (seq 0 n))
                  = take (10 * n) (ip_addresses w)).
  { induction n as [|n IH]; [reflexivity|].
    rewrite seq_S, map_app, List.concat_app, IH. cbn [map List.concat Nat.add].
    rewrite app_nil_r, page_rows_nat, take_take_drop. f_equal. lia. }
  split; [|split].
  - intros p. rewrite (list_body_quiet chatId _ w Hq), page_rows_nat. reflexivity.
  - exact Htile.
  - intros Hlen. rewrite Htile. apply take_ge. exact Hlen.
Qed.

(** X3: when the table holds a whole number of pages, the last page is full
    and still carries a "Next" button; pressing it shows a page with the text
    "No entries found." and the "Previous" button alone. *)
Theorem full_last_page_offers_next (chatId : Z) (w : World) (p : nat) :
  faults w = [] ->
  List.length (ip_addresses w) = (10 * (p + 1))%nat ->
  mkButton "Next" ("next_page_" +:+ Js.showZ (Z.of_nat p))
    ∈ last_keyboard (listIpAddresses chatId (Z.of_nat p) w)
  /\ last_body (listIpAddresses chatId (Z.of_nat p + 1) w) = Some "No entries found."
  /\ last_keyboard (listIpAddresses chatId (Z.of_nat p + 1) w)
     = [mkButton "Previous" ("prev_page_" +:+ Js.showZ (Z.of_nat p + 1))].
Proof.
  intros Hq Hlen.
  assert (Hfull : List.length (page_rows (Z.of_nat p) (ip_addresses w)) = 10%nat).
  { rewrite page_rows_nat, length_take, length_drop, Hlen. lia. }
  assert (Hempty : page_rows (Z.of_nat p + 1) (ip_addresses w) = []).
  { replace (Z.of_nat p + 1) with (Z.of_nat (p + 1)) by lia.
    rewrite page_rows_nat, drop_ge by lia. reflexivity. }
  split; [|split].
  - rewrite (listIpAddresses_quiet chatId _ w Hq). unfold last_keyboard.
    cbn [calls call]. rewrite last_snoc, Hfull. cbn [Z.of_nat Pos.of_succ_nat Z.eqb Pos.eqb].
    change (Z.of_nat 10 =? 10) with true. cbn iota.
    apply elem_of_app. right. apply list_elem_of_here.
  - rewrite (list_body_quiet chatId _ w Hq), Hempty. reflexivity.
  - rewrite (listIpAddresses_quiet chatId _ w Hq). unfold last_keyboard.
    cbn [calls call]. rewrite last_snoc, Hempty. cbn [List.length Z.of_nat Z.eqb app].
    replace (0 <? Z.of_nat p + 1) with true by (symmetry; apply Z.ltb_lt; lia).
    reflexivity.
Qed.

(** *** Check with a CIDR argument *)

Lemma check_cidr_loop_spec (chat : Z) (input : string) (rows : list Row) (w : World) :
  ((exists r, r ∈ rows /\ cidr r = Some input) ->
   check_cidr_loop chat input rows w
   = (true, call (sendMessage chat ("CIDR " +:+ input +:+ " exists in your records.") None) w))
  /\ ((forall r, r ∈ rows -> cidr r <> Some input) ->
      check_cidr_loop chat input rows w = (false, w)).
Proof.
  induction rows as [|x rows [IH1 IH2]]; split.
  - intros (r & Hr & _). apply elem_of_nil in Hr. contradiction.
  - reflexivity.
  - intros (r & Hr & Hc). cbn [check_cidr_loop].
    destruct (col_eq (cidr x) input) eqn:E; [reflexivity|].
    apply IH1. apply elem_of_cons in Hr as [->|Hr]; [|eauto].
    apply col_eq_Some in Hc. congruence.
  - intros Hnone. cbn [check_cidr_loop].
    destruct (col_eq (cidr x) input) eqn:E.
    + apply col_eq_Some in E. destruct (Hnone x (list_elem_of_here _ _) E).
    + apply IH2. intros r Hr. apply Hnone, list_elem_of_further, Hr.
Qed.

(** X4: for an argument that is a valid CIDR, and with the table readable,
    the check handler compares the text with the [cidr] column only, by
    string equality and over the rows of all users: it answers "exists in
    your records" iff some row stores exactly that text as a CIDR, and "does
    not exist in your records" otherwise; containment is not consulted. *)
Theorem check_cidr_exact (chat : Z) (match1 : string) (w : World) :
  faults w = [] ->
  isValidCIDR (Js.trim match1) = true ->
  let input := Js.trim match1 in
  ((exists r, r ∈ ip_addresses w /\ cidr r = Some input) ->
   on_check chat match1 w
   = call (sendMessage chat ("CIDR " +:+ input +:+ " exists in your records.") None) w)
  /\ ((forall r, r ∈ ip_addresses w -> cidr r <> Some input) ->
      on_check chat match1 w
      = call (sendMessage chat ("CIDR " +:+ input +:+ " does not exist in your records.") None) w).
Proof.
  intros Hq Hc input. subst input.
  destruct (check_cidr_loop_spec chat (Js.trim match1) (ip_addresses w) w) as [H1 H2].
  split; intros H; unfold on_check; rewrite (db_call_quiet w Hq), Hc.
  - rewrite (H1 H). reflexivity.
  - rewrite (H2 H). reflexivity.
Qed.

(** *** Storage errors *)

(** X5: when the existence query of an add fails, the handler reports the
    error text and stops: nothing is inserted and no insert is attempted.
    When the query succeeds, finds nothing, and the insert fails, the handler
    reports that error; the table is unchanged and no success is announced. *)
Theorem add_storage_errors (from chat : Z) (match1 msg : string)
        (rest : list (option string)) (w : World) :
  (faults w = Some msg :: rest ->
   on_add from chat match1 w
   = call (sendMessage chat ("Error checking if it exists: " +:+ msg) None)
          (set_faults rest w))
  /\ (faults w = None :: Some msg :: rest ->
      List.find (where_owner_value from (Js.trim match1)
                   (if isValidCIDR (Js.trim match1) then "" else Js.trim match1))
                (ip_addresses w) = None ->
      on_add from chat match1 w
      = call (sendMessage chat ("Error adding entry: " +:+ msg) None) (set_faults rest w)).
Proof.
  split.
  - intros Hf. unfold on_add, db_call. rewrite Hf. reflexivity.
  - intros Hf Hfind. unfold on_add, addEntry, db_call. rewrite Hf.
    cbn [ip_addresses set_faults]. rewrite Hfind. cbn. reflexivity.
Qed.

(** X6: when the statement of a delete, a list page or a check fails, the
    handler sends one message with the error text and nothing else happens:
    no row is removed, no page or check result is sent. *)
Theorem read_and_delete_storage_errors (from chat page : Z) (match1 msg : string)
        (rest : list (option string)) (w : World) :
  faults w = Some msg :: rest ->
  on_delete from chat match1 w
  = call (sendMessage chat ("Error deleting the entry: " +:+ msg) None) (set_faults rest w)
  /\ listIpAddresses chat page w
     = call (sendMessage chat ("Error fetching list: " +:+ msg) None) (set_faults rest w)
  /\ on_check chat match1 w
     = call (sendMessage chat ("Error checking IP: " +:+ msg) None) (set_faults rest w).
Proof.
  intros Hf. unfold on_delete, listIpAddresses, on_check, db_call. rewrite Hf.
  repeat split; reflexivity.
Qed.

(** *** Add, delete and check together *)

Lemma find_owned (u : Z) (v : string) (rows : list Row) :
  (List.find (where_owner_value u v v) rows = None
   <-> forall r, r ∈ rows -> ~ owned_match u v r)
  /\ ((exists r, List.find (where_owner_value u v v) rows = Some r)
      <-> exists r, r ∈ rows /\ owned_match u v r).
Proof.
  split; split.
  - intros Hf r Hr Hm. apply list_elem_of_In in Hr.
    pose proof (List.find_none _ _ Hf r Hr) as Hn.
    apply where_owner_value_spec in Hm. congruence.
  - intros Hnone. destruct (List.find _ rows) as [r|] eqn:E; [|reflexivity].
    apply List.find_some in E as [Hr Hm].
    destruct (Hnone r); [apply list_elem_of_In, Hr | apply where_owner_value_spec, Hm].
  - intros (r & Hf). apply List.find_some in Hf as [Hr Hm]. exists r.
    split; [apply list_elem_of_In, Hr | apply where_owner_value_spec, Hm].
  - intros (r & Hr & Hm). destruct (List.find _ rows) as [r'|] eqn:E; [eauto|].
    apply list_elem_of_In in Hr. pose proof (List.find_none _ _ E r Hr) as Hn.
    apply where_owner_value_spec in Hm. congruence.
Qed.

(** X7: for a value that is not classified as a CIDR block, the add handler
    decides on the acting user's rows alone: it answers "already been added"
    iff that user holds the value in [ip_address] or [cidr], and inserts it
    otherwise, also when other users hold the same value. *)
Theorem add_bare_decision (from chat : Z) (match1 : string) (w : World) :
  faults w = [] ->
  isValidCIDR (Js.trim match1) = false ->
  let v := Js.trim match1 in
  ((exists r, r ∈ ip_addresses w /\ owned_match from v r) ->
   on_add from chat match1 w
   = call (sendMessage chat ("Address " +:+ v +:+ " has already been added.") None) w)
  /\ ((forall r, r ∈ ip_addresses w -> ~ owned_match from v r) ->
      on_add from chat match1 w
      = call (sendMessage chat ("IP address " +:+ v +:+ " added successfully.") None)
             (set_table (ip_addresses w ++ [mkRow (sqlite_sequence w + 1) from (Some v) None])%list
                        (sqlite_sequence w + 1) w)).
Proof.
  intros Hq Hc v. subst v. destruct (find_owned from (Js.trim match1) (ip_addresses w)) as [Hn Hs].
  split; intros H.
  - apply Hs in H as [r Hr]. exact (add_bare_present isValidCIDR from chat match1 w r Hq Hc Hr).
  - apply Hn in H. exact (add_bare_fresh isValidCIDR from chat match1 w Hq Hc H).
Qed.

Lemma on_add_quiet_cases (from chat : Z) (match1 : string) (w : World) :
  faults w = [] ->
  let v := Js.trim match1 in
  let c := isValidCIDR v in
  (List.find (where_owner_value from v (if c then "" else v)) (ip_addresses w) <> None
   /\ on_add from chat match1 w
      = call (sendMessage chat ("Address " +:+ v +:+ " has already been added.") None) w)
  \/ (List.find (where_owner_value from v (if c then "" else v)) (ip_addresses w) = None
      /\ on_add from chat match1 w
         = call (sendMessage chat ((if c then "CIDR" else "IP address") +:+ " " +:+ v
                                   +:+ " added successfully.") None)
                (set_table (ip_addresses w ++ [new_row (sqlite_sequence w) from v c])%list
                           (sqlite_sequence w + 1) w)).
Proof.
  intros Hq v c. subst v c. unfold on_add. rewrite (db_call_quiet w Hq).
  destruct (List.find _ (ip_addresses w)) as [r|] eqn:E.
  - left. split; [discriminate | reflexivity].
  - right. split; [reflexivity|]. rewrite (addEntry_quiet _ _ _ w Hq).
    unfold new_row. destruct (isValidCIDR (Js.trim match1)); reflexivity.
Qed.

Lemma on_delete_rows (from chat : Z) (match1 : string) (w : World) :
  faults w = [] ->
  ip_addresses (on_delete from chat match1 w)
  = filter (fun r => ~ owned_match from (Js.trim match1) r) (ip_addresses w)
  /\ sqlite_sequence (on_delete from chat match1 w) = sqlite_sequence w.
Proof.
  intros Hq. unfold on_delete. rewrite (db_call_quiet w Hq). cbv zeta.
  rewrite <- (delete_filter isValidCIDR contains).
  split; destruct (0 <? _)%nat; reflexivity.
Qed.

(** X8: a delete that follows an add of the same text by the same user
    leaves that user without any record of the value, whether the add
    inserted it or found it present, and whichever column holds it; all other
    rows stay, in their order.  The identifier counter is not wound back, so
    the id that the add consumed is not given out again. *)
Theorem delete_undoes_add (from chat : Z) (match1 : string) (w : World) :
  faults w = [] ->
  let w' := on_delete from chat match1 (on_add from chat match1 w) in
  ip_addresses w' = filter (fun r => ~ owned_match from (Js.trim match1) r) (ip_addresses w)
  /\ (forall r, r ∈ ip_addresses w' -> ~ owned_match from (Js.trim match1) r)
  /\ sqlite_sequence w <= sqlite_sequence w'
  /\ (ip_addresses (on_add from chat match1 w) <> ip_addresses w ->
      sqlite_sequence w' = sqlite_sequence w + 1).
Proof.
  intros Hq w'.
  assert (Hrows : ip_addresses w'
                  = filter (fun r => ~ owned_match from (Js.trim match1) r) (ip_addresses w)
                  /\ sqlite_sequence w <= sqlite_sequence w'
                  /\ (ip_addresses (on_add from chat match1 w) <> ip_addresses w ->
                      sqlite_sequence w' = sqlite_sequence w + 1)).
  { subst w'.
    destruct (on_add_quiet_cases from chat match1 w Hq) as [[_ E]|[_ E]]; rewrite E.
    - destruct (on_delete_rows from chat match1
                  (call (sendMessage chat ("Address " +:+ Js.trim match1
                                           +:+ " has already been added.") None) w) Hq)
        as [H1 H2].
      rewrite H1, H2. cbn [ip_addresses sqlite_sequence call].
      split; [reflexivity|]. split; [lia|]. congruence.
    - set (w1 := call _ _).
      destruct (on_delete_rows from chat match1 w1 Hq) as [H1 H2].
      rewrite H1, H2. subst w1. cbn [ip_addresses sqlite_sequence call set_table].
      split; [|split; [lia | reflexivity]].
      rewrite filter_app. rewrite (filter_cons_False _ _ []); [apply app_nil_r|].
      intros Hn. apply Hn. unfold owned_match, new_row.
      destruct (isValidCIDR (Js.trim match1)); cbn; auto. }
  destruct Hrows as (Hrows & Hseq & Hnext).
  split; [exact Hrows|]. split; [|split; assumption].
  intros r Hr. rewrite Hrows in Hr. apply list_elem_of_filter in Hr as [Hr _]. exact Hr.
Qed.

(** X9: a value that an add has just inserted is found by a check of the
    same text.  For a CIDR text the answer is "exists in your records"; for
    any other text the answer is "is within CIDR ..." naming a row that
    matches it, never "is not within any stored CIDR". *)
Theorem add_then_check_finds (from chat chat2 : Z) (match1 : string) (w : World) :
  faults w = [] ->
  let v := Js.trim match1 in
  List.find (where_owner_value from v (if isValidCIDR v then "" else v)) (ip_addresses w) = None ->
  let w1 := on_add from chat match1 w in
  (isValidCIDR v = true ->
   on_check chat2 match1 w1
   = call (sendMessage chat2 ("CIDR " +:+ v +:+ " exists in your records.") None) w1)
  /\ (isValidCIDR v = false ->
      exists r, r ∈ ip_addresses w1
                /\ check_matches isValidCIDR contains v r
                /\ on_check chat2 match1 w1
                   = call (sendMessage chat2
                             (v +:+ " is within CIDR " +:+ Js.showNullable (cidr r)
                              +:+ " from user " +:+ Js.showZ (user_id r)) None) w1).
Proof.
  intros Hq v Hfind w1. subst v.
  destruct (on_add_quiet_cases from chat match1 w Hq) as [[Hn _]|[_ E]]; [congruence|].
  assert (Hq1 : faults w1 = []) by (subst w1; rewrite E; exact Hq).
  assert (Hrows : ip_addresses w1
                  = (ip_addresses w
                     ++ [new_row (sqlite_sequence w) from (Js.trim match1)
                           (isValidCIDR (Js.trim match1))])%list)
    by (subst w1; rewrite E; reflexivity).
  clearbody w1. split; intros Hc.
  - unfold on_check. rewrite (db_call_quiet w1 Hq1), Hc.
    rewrite (proj1 (check_cidr_loop_spec chat2 (Js.trim match1) (ip_addresses w1) w1));
      [reflexivity|].
    eexists. split; [rewrite Hrows; apply elem_of_app; right; apply list_elem_of_here|].
    rewrite Hc. reflexivity.
  - destruct (first_match_split isValidCIDR contains (Js.trim match1) (ip_addresses w1))
      as [Hnone|(pre & r & post & Hsplit & Hpre & Hr)].
    + rewrite Hrows, Forall_app, Forall_singleton in Hnone. destruct Hnone as [_ Hnone].
      destruct Hnone. left. rewrite Hc. reflexivity.
    + exists r. split; [rewrite Hsplit; apply elem_of_app; right; apply list_elem_of_here|].
      split; [exact Hr|].
      unfold on_check. rewrite (db_call_quiet w1 Hq1), Hc, Hsplit.
      rewrite (check_ip_loop_first isValidCIDR contains chat2 _ pre post r w1 Hpre Hr).
      reflexivity.
Qed.

(** *** Properties of single rows over every run *)

Section RowInvariant.

Variable Q : Row -> Prop.
Hypothesis Q_new : forall (seq u : Z) (v : string), Q (new_row seq u v (isValidCIDR v)).







End RowInvariant.


(** *** Conversations do not leak into each other *)

Lemma stays_refl (chat : Z) (w : World) : stays_in chat w w.
Proof. split; [auto|]. exists []. rewrite app_nil_r. auto. Qed.

Lemma stays_same (chat : Z) (w x x' : World) :
  listPage x' = listPage x -> batchAddData x' = batchAddData x -> calls x' = calls x ->
  stays_in chat w x -> stays_in chat w x'.
Proof. unfold stays_in. intros -> -> ->. auto. Qed.

Lemma stays_call (chat : Z) (c : Call) (w x : World) :
  addressed_to chat c -> stays_in chat w x -> stays_in chat w (call c x).
Proof.
  intros Hc [Hm (new & Hn & Hf)]. split; [exact Hm|].
  exists (new ++ [c])%list. cbn [calls call]. rewrite Hn, app_assoc. split; [reflexivity|].
  apply Forall_app. split; [exact Hf | constructor; [exact Hc | constructor]].
Qed.

Lemma stays_listPage (chat v : Z) (w x : World) :
  stays_in chat w x -> stays_in chat w (set_listPage (<[chat := v]> (listPage x)) x).
Proof.
  intros [Hm Hc]. split; [|exact Hc]. intros other Ho. cbn.
  rewrite lookup_insert_ne by congruence. apply Hm, Ho.
Qed.

Lemma stays_batch_insert (chat : Z) (b : Batch) (w x : World) :
  stays_in chat w x -> stays_in chat w (set_batchAddData (<[chat := b]> (batchAddData x)) x).
Proof.
  intros [Hm Hc]. split; [|exact Hc]. intros other Ho. cbn.
  rewrite lookup_insert_ne by congruence. apply Hm, Ho.
Qed.

Lemma stays_batch_delete (chat : Z) (w x : World) :
  stays_in chat w x -> stays_in chat w (set_batchAddData (delete chat (batchAddData x)) x).
Proof.
  intros [Hm Hc]. split; [|exact Hc]. intros other Ho. cbn.
  rewrite lookup_delete_ne by congruence. apply Hm, Ho.
Qed.

Lemma stays_db_call (chat : Z) (w x : World) :
  stays_in chat w x -> stays_in chat w (db_call x).2.
Proof.
  intros H. unfold db_call. destruct (faults x); [exact H|].
  exact (stays_same chat w x _ eq_refl eq_refl eq_refl H).
Qed.

Lemma stays_addEntry (chat u : Z) (v : string) (c : bool) (w x : World) :
  stays_in chat w x -> stays_in chat w (addEntry u v c x).2.
Proof.
  intros H. unfold addEntry, db_call.
  destruct (faults x) as [|[m|] fs]; exact (stays_same chat w x _ eq_refl eq_refl eq_refl H).
Qed.

Lemma stays_addPromises (chat u : Z) (l : list string) (w x : World) :
  stays_in chat w x -> stays_in chat w (addPromises isValidCIDR u l x).2.
Proof.
  revert x. induction l as [|a l IH]; intros x H; [exact H|]. simpl.
  pose proof (stays_addEntry chat u a (isValidCIDR a) w x H) as H1.
  destruct (addEntry u a (isValidCIDR a) x) as [err x1]. cbn [snd] in H1.
  specialize (IH x1 H1).
  destruct (addPromises isValidCIDR u l x1) as [[s e] x2]. destruct err; exact IH.
Qed.

Lemma stays_listIpAddresses (chat page : Z) (w x : World) :
  stays_in chat w x -> stays_in chat w (listIpAddresses chat page x).
Proof.
  intros H. unfold listIpAddresses. pose proof (stays_db_call chat w x H) as H0.
  destruct (db_call x) as [[m|] x0]; apply stays_call; try exact H0; reflexivity.
Qed.

Lemma stays_retract (chat : Z) (w x : World) :
  stays_in chat w x -> stays_in chat w (retract_and_clear chat x).1.
Proof.
  intros H. unfold retract_and_clear. destruct (batchAddData x !! chat) as [b|]; [|exact H].
  destruct (messageId_truthy b); cbn [fst]; apply stays_batch_delete; [|exact H].
  apply stays_call; [reflexivity | exact H].
Qed.

Lemma stays_check_loops (chat : Z) (input : string) (rows : list Row) (w x : World) :
  stays_in chat w x ->
  stays_in chat w (check_cidr_loop chat input rows x).2
  /\ stays_in chat w (check_ip_loop isValidCIDR contains chat input rows x).2.
Proof.
  intros H. split; induction rows as [|r rows IH]; cbn; try exact H.
  - destruct (col_eq (cidr r) input); [|exact IH]. apply stays_call; [reflexivity|exact H].
  - destruct (check_hit isValidCIDR contains input r); [|exact IH].
    apply stays_call; [reflexivity|exact H].
Qed.

(** X11: a handler works for its own conversation only.  Whatever the
    event, the list cursors and the pending batches of all other chats are
    left as they were, and every message that is sent or deleted belongs to
    the chat of the event. *)
Theorem handlers_stay_in_chat (e : Event) (w : World) :
  stays_in (chat_of e) w (handle e w).1.
Proof.
  pose proof (stays_refl (chat_of e) w) as Hw.
  destruct e as [chat|from chat m|from chat m|chat|chat from q d|chat m|chat from|chat body sid];
    cbn [chat_of] in *.
  - change (stays_in chat w (on_start_help chat w)). apply stays_call; [reflexivity|exact Hw].
  - change (stays_in chat w (on_add from chat m w)). unfold on_add.
    pose proof (stays_db_call chat w w Hw) as H0.
    destruct (db_call w) as [[msg|] w0]; cbn [snd] in H0;
      [apply stays_call; [reflexivity|exact H0]|].
    destruct (List.find _ (ip_addresses w0)); [apply stays_call; [reflexivity|exact H0]|].
    pose proof (stays_addEntry chat from (Js.trim m) (isValidCIDR (Js.trim m)) w w0 H0) as H1.
    destruct (addEntry _ _ _ w0) as [[msg|] w1]; cbn [snd] in H1;
      apply stays_call; try exact H1; reflexivity.
  - change (stays_in chat w (on_delete from chat m w)). unfold on_delete.
    pose proof (stays_db_call chat w w Hw) as H0.
    destruct (db_call w) as [[msg|] w0]; cbn [snd] in H0;
      [apply stays_call; [reflexivity|exact H0]|].
    destruct (0 <? _)%nat; (apply stays_call; [reflexivity|]);
      exact (stays_same chat w w0 _ eq_refl eq_refl eq_refl H0).
  - change (stays_in chat w (on_list chat w)). unfold on_list.
    apply stays_listIpAddresses, stays_listPage, Hw.
  - change (stays_in chat w (on_callback_query chat from q d w).1).
    unfold on_callback_query.
    destruct (Js.startsWith "prev_page_" d || Js.startsWith "next_page_" d).
    { destruct (_ ≫= Js.parseInt) as [page|]; cbn [fst]; [|exact Hw].
      apply stays_listIpAddresses, stays_call; [exact I|]. apply stays_listPage, Hw. }
    destruct (String.eqb d "confirm_batch_add" && _).
    + destruct (batchAddData w !! chat) as [b|]; [|exact Hw].
      pose proof (stays_addPromises chat from (addresses b) w w Hw) as H2.
      destruct (addPromises isValidCIDR from (addresses b) w) as [[s e'] w2].
      cbn [snd] in H2. apply stays_retract, stays_call; [reflexivity|exact H2].
    + destruct (String.eqb d "cancel_batch_add"); cbn [fst]; [|exact Hw].
      apply stays_retract, stays_call; [reflexivity|exact Hw].
  - change (stays_in chat w (on_check chat m w)). unfold on_check.
    pose proof (stays_db_call chat w w Hw) as H0.
    destruct (db_call w) as [[msg|] w0]; cbn [snd] in H0;
      [apply stays_call; [reflexivity|exact H0]|].
    destruct (stays_check_loops chat (Js.trim m) (ip_addresses w0) w w0 H0) as [H1 H2].
    destruct (isValidCIDR (Js.trim m)).
    + destruct (check_cidr_loop _ _ _ _) as [[|] w1]; cbn [snd] in H1; [exact H1|].
      apply stays_call; [reflexivity|exact H1].
    + destruct (check_ip_loop _ _ _ _ _ _) as [[|] w1]; cbn [snd] in H2; [exact H2|].
      apply stays_call; [reflexivity|exact H2].
  - change (stays_in chat w (on_batchadd chat from w)). unfold on_batchadd.
    apply stays_call; [reflexivity|]. apply stays_batch_insert, Hw.
  - change (stays_in chat w (on_message chat body sid w).1). unfold on_message.
    destruct (batchAddData w !! chat) as [b|]; [|exact Hw].
    destruct body as [t|]; [|exact Hw].
    destruct (Js.truthy (Js.trim t)); cbn [fst].
    + apply stays_batch_insert, stays_call; [reflexivity|]. apply stays_batch_insert, Hw.
    + apply stays_batch_delete, stays_call; [reflexivity|exact Hw].
Qed.

(** X12: only an add, a delete and a batch confirmation can change the
    table: every other event (help, list, paging, check, starting a batch,
    collecting its lines, cancelling it, an unknown callback) leaves the rows
    and the identifier counter exactly as they were. *)
Theorem only_writers_change_table (e : Event) (w : World) :
  is_writer e = false -> table_of (handle e w).1 = table_of w.
Proof.
  destruct e as [chat|from chat m|from chat m|chat|chat from q d|chat m|chat from|chat body sid];
    cbn [is_writer]; intros Hnw; try discriminate Hnw.
  - reflexivity.
  - change (table_of (on_list chat w) = table_of w). unfold on_list.
    rewrite listIpAddresses_table. reflexivity.
  - change (table_of (on_callback_query chat from q d w).1 = table_of w).
    unfold on_callback_query. rewrite Hnw. cbn [andb].
    destruct (Js.startsWith "prev_page_" d || Js.startsWith "next_page_" d).
    { destruct (_ ≫= Js.parseInt) as [page|]; cbn [fst]; [|reflexivity].
      rewrite listIpAddresses_table. reflexivity. }
    destruct (String.eqb d "cancel_batch_add"); cbn [fst]; [|reflexivity].
    rewrite retract_and_clear_table. reflexivity.
  - apply (on_check_table isValidCIDR contains).
  - reflexivity.
  - apply on_message_table.
Qed.

(** *** Collecting and confirming a batch *)

(** X13: while a batch is pending, a text that is not blank always yields a
    list of candidates that is not empty, so the test of the trimmed text
    alone guards the prompt; every candidate is a non-empty single line
    without surrounding white space.  The list replaces the candidates of the
    pending batch, the owner stays, the id of the prompt is recorded, and the
    prompt carries the two buttons whose tokens the callback handler knows. *)
Theorem message_collects_candidates (chat sent_id : Z) (t : string) (w : World) (b : Batch) :
  batchAddData w !! chat = Some b ->
  Js.trim t <> "" ->
  candidates t <> []
  /\ Forall clean_candidate (candidates t)
  /\ on_message chat (Some t) sent_id w
     = (set_batchAddData
          (<[chat := mkBatch (userId b) (candidates t) (Some sent_id)]>
             (<[chat := mkBatch (userId b) (candidates t) (messageId b)]> (batchAddData w)))
          (call (prompt chat (candidates t))
             (set_batchAddData
                (<[chat := mkBatch (userId b) (candidates t) (messageId b)]> (batchAddData w)) w)),
        Normal)
  /\ batchAddData (on_message chat (Some t) sent_id w).1 !! chat
     = Some (mkBatch (userId b) (candidates t) (Some sent_id))
  /\ calls (on_message chat (Some t) sent_id w).1 = (calls w ++ [prompt chat (candidates t)])%list.
Proof.
  intros Hb Hne.
  assert (E : on_message chat (Some t) sent_id w
              = (set_batchAddData
                   (<[chat := mkBatch (userId b) (candidates t) (Some sent_id)]>
                      (<[chat := mkBatch (userId b) (candidates t) (messageId b)]> (batchAddData w)))
                   (call (prompt chat (candidates t))
                      (set_batchAddData
                         (<[chat := mkBatch (userId b) (candidates t) (messageId b)]>
                            (batchAddData w)) w)),
                 Normal)).
  { unfold on_message. rewrite Hb. unfold Js.truthy.
    apply String.eqb_neq in Hne. rewrite Hne. reflexivity. }
  split; [apply candidates_nonempty; exact Hne|].
  split; [apply candidates_clean|]. split; [exact E|]. rewrite E. cbn.
  split; [apply lookup_insert_eq | reflexivity].
Qed.

(** X14: the other cases of the message handler.  With no pending batch
    in the chat a message is ignored.  With a pending batch, a blank text
    abandons the batch with "No valid addresses found. Please try again.",
    and a message without text makes the handler throw, the batch staying
    pending. *)
Theorem message_edge_cases (chat sent_id : Z) (w : World) :
  (batchAddData w !! chat = None ->
   forall body, on_message chat body sent_id w = (w, Normal))
  /\ (forall b t, batchAddData w !! chat = Some b -> Js.trim t = "" ->
                  on_message chat (Some t) sent_id w
                  = (set_batchAddData (delete chat (batchAddData w))
                       (call (sendMessage chat "No valid addresses found. Please try again." None) w),
                     Normal)
                  /\ batchAddData (on_message chat (Some t) sent_id w).1 !! chat = None)
  /\ (forall b, batchAddData w !! chat = Some b ->
                on_message chat None sent_id w = (w, Throw "TypeError")).
Proof.
  split; [|split].
  - intros Hb body. unfold on_message. rewrite Hb. reflexivity.
  - intros b t Hb Ht.
    assert (E : on_message chat (Some t) sent_id w
                = (set_batchAddData (delete chat (batchAddData w))
                     (call (sendMessage chat "No valid addresses found. Please try again." None) w),
                   Normal)).
    { unfold on_message. rewrite Hb, Ht. reflexivity. }
    split; [exact E|]. rewrite E. cbn. apply lookup_delete_eq.
  - intros b Hb. unfold on_message. rewrite Hb. reflexivity.
Qed.

(** X15: callbacks that the handler lets pass.  A [confirm_batch_add] click
    in a chat without a pending batch is ignored (unlike a cancel click), and
    so is any callback whose data is none of the four tokens. *)
Theorem callbacks_ignored (chatId from : Z) (queryId data : string) (w : World) :
  (batchAddData w !! chatId = None ->
   on_callback_query chatId from queryId "confirm_batch_add" w = (w, Normal))
  /\ (Js.startsWith "prev_page_" data = false ->
      Js.startsWith "next_page_" data = false ->
      data <> "confirm_batch_add" -> data <> "cancel_batch_add" ->
      on_callback_query chatId from queryId data w = (w, Normal)).
Proof.
  split.
  - intros Hb. unfold on_callback_query. cbn. rewrite Hb. reflexivity.
  - intros Hp Hn Hc Hx. unfold on_callback_query. rewrite Hp, Hn.
    apply String.eqb_neq in Hc, Hx. rewrite Hc, Hx. reflexivity.
Qed.



(** *** White space around an argument *)

(** X21: add, delete and check read their argument only through [trim]:
    the same argument with white space added or removed at its ends gives the
    same state and the same messages. *)
Theorem surrounding_space_ignored (from chat : Z) (match1 match2 : string) (w : World) :
  Js.trim match1 = Js.trim match2 ->
  on_add from chat match1 w = on_add from chat match2 w
  /\ on_delete from chat match1 w = on_delete from chat match2 w
  /\ on_check chat match1 w = on_check chat match2 w
  /\ on_add from chat (Js.trim match1) w = on_add from chat match1 w.
Proof.
  intros H. unfold on_add, on_delete, on_check. rewrite trim_idem, H.
  repeat split; reflexivity.
Qed.

(** *** Identifiers *)


End Further.

(** ** The further properties at concrete inputs *)

Lemma page_buttons_turn_pages_witness :
  listPage (on_callback_query IPv4.isValidCIDR 1 7 "q" "next_page_0" (Sample.table 25)).1 !! 1
  = Some 1.
Proof.
  destruct (page_buttons_turn_pages IPv4.isValidCIDR 1 0 (Sample.table 25)
              (mkButton "Next" "next_page_0") eq_refl) as [_ H].
  - vm_compute. apply list_elem_of_here.
  - exact (proj2 (H 7 "q" (Sample.table 25))).
Defined.

Lemma pages_tile_table_witness :
  List.concat (map (fun p => page_rows (Z.of_nat p) (ip_addresses (Sample.table 25))) (seq 0 3))
  = ip_addresses (Sample.table 25).
Proof.
  apply (pages_tile_table 1 (Sample.table 25) 3 eq_refl). vm_compute. lia.
Defined.

Lemma full_last_page_offers_next_witness :
  last_body (listIpAddresses 1 2 (Sample.table 20)) = Some "No entries found."
  /\ last_keyboard (listIpAddresses 1 2 (Sample.table 20))
     = [mkButton "Previous" "prev_page_2"].
Proof.
  exact (proj2 (full_last_page_offers_next 1 (Sample.table 20) 1 eq_refl eq_refl)).
Defined.

Lemma check_cidr_exact_witness :
  on_check IPv4.isValidCIDR IPv4.contains 1 " 10.1.0.0/16" Sample.nested
  = call (sendMessage 1 "CIDR 10.1.0.0/16 exists in your records." None) Sample.nested.
Proof.
  apply (check_cidr_exact IPv4.isValidCIDR IPv4.contains 1 " 10.1.0.0/16" Sample.nested
           eq_refl eq_refl).
  exists Sample.narrow. split; [apply list_elem_of_further, list_elem_of_here | reflexivity].
Defined.

Lemma add_storage_errors_witness :
  on_add IPv4.isValidCIDR 7 1 "1.2.3.4" Sample.busy
  = call (sendMessage 1 "Error checking if it exists: SQLITE_BUSY: database is locked" None)
         initial
  /\ on_add IPv4.isValidCIDR 7 1 "1.2.3.4" Sample.busy_later
     = call (sendMessage 1 "Error adding entry: SQLITE_BUSY: database is locked" None) initial.
Proof.
  split.
  - exact (proj1 (add_storage_errors IPv4.isValidCIDR 7 1 "1.2.3.4" _ [] Sample.busy) eq_refl).
  - exact (proj2 (add_storage_errors IPv4.isValidCIDR 7 1 "1.2.3.4" _ [] Sample.busy_later)
             eq_refl eq_refl).
Defined.

Lemma read_and_delete_storage_errors_witness :
  on_delete 7 1 "1.2.3.4" Sample.busy
  = call (sendMessage 1 "Error deleting the entry: SQLITE_BUSY: database is locked" None) initial.
Proof.
  exact (proj1 (read_and_delete_storage_errors IPv4.isValidCIDR IPv4.contains 7 1 0 "1.2.3.4"
                  _ [] Sample.busy eq_refl)).
Defined.

(** Users 7 and 8 hold [1.2.3.4]; user 9 adds it as well. *)
Lemma add_bare_decision_witness :
  on_add IPv4.isValidCIDR 9 1 "1.2.3.4" Sample.shared
  = call (sendMessage 1 "IP address 1.2.3.4 added successfully." None)
         (set_table (ip_addresses Sample.shared ++ [mkRow 3 9 (Some "1.2.3.4") None])%list
                    3 Sample.shared).
Proof.
  apply (add_bare_decision IPv4.isValidCIDR 9 1 "1.2.3.4" Sample.shared eq_refl eq_refl).
  intros r Hr [Hu _]. revert Hu.
  repeat (apply elem_of_cons in Hr as [->|Hr]); [discriminate | discriminate |].
  apply elem_of_nil in Hr. contradiction.
Defined.

Lemma delete_undoes_add_witness :
  ip_addresses (on_delete 9 1 "5.6.7.8" (on_add IPv4.isValidCIDR 9 1 "5.6.7.8" Sample.shared))
  = ip_addresses Sample.shared.
Proof.
  rewrite (proj1 (delete_undoes_add IPv4.isValidCIDR IPv4.contains 9 1 "5.6.7.8"
                    Sample.shared eq_refl)).
  reflexivity.
Defined.

Lemma add_then_check_finds_witness :
  let w1 := on_add IPv4.isValidCIDR 7 1 "10.0.0.0/8" initial in
  on_check IPv4.isValidCIDR IPv4.contains 2 "10.0.0.0/8" w1
  = call (sendMessage 2 "CIDR 10.0.0.0/8 exists in your records." None) w1.
Proof.
  exact (proj1 (add_then_check_finds IPv4.isValidCIDR IPv4.contains 7 1 2 "10.0.0.0/8"
                  initial eq_refl eq_refl) eq_refl).
Defined.

Lemma only_writers_change_table_witness :
  table_of (handle IPv4.isValidCIDR IPv4.contains (CheckCmd 1 "10.1.2.3") Sample.nested).1
  = table_of Sample.nested.
Proof.
  apply (only_writers_change_table IPv4.isValidCIDR IPv4.contains). reflexivity.
Defined.

Lemma message_collects_candidates_witness :
  batchAddData (on_message 1 (Some Sample.lines) 200 Sample.pending).1 !! 1
  = Some (mkBatch 7 ["1.2.3.4"; "10.0.0.0/8"] (Some 200)).
Proof.
  destruct (message_collects_candidates 1 200 Sample.lines Sample.pending Sample.batch eq_refl)
    as (_ & _ & _ & H & _).
  - vm_compute. discriminate.
  - exact H.
Defined.

Lemma message_edge_cases_witness :
  on_message 1 (Some "  ") 200 Sample.pending
  = (set_batchAddData (delete 1 (batchAddData Sample.pending))
       (call (sendMessage 1 "No valid addresses found. Please try again." None) Sample.pending),
     Normal)
  /\ on_message 1 None 200 Sample.pending = (Sample.pending, Throw "TypeError").
Proof.
  destruct (message_edge_cases 1 200 Sample.pending) as (_ & Hblank & Hnone).
  split.
  - exact (proj1 (Hblank Sample.batch "  " eq_refl eq_refl)).
  - exact (Hnone Sample.batch eq_refl).
Defined.

Lemma callbacks_ignored_witness :
  on_callback_query IPv4.isValidCIDR 1 7 "q" "confirm_batch_add" initial = (initial, Normal)
  /\ on_callback_query IPv4.isValidCIDR 1 7 "q" "page_3" Sample.pending
     = (Sample.pending, Normal).
Proof.
  split.
  - exact (proj1 (callbacks_ignored IPv4.isValidCIDR 1 7 "q" "" initial) eq_refl).
  - apply (callbacks_ignored IPv4.isValidCIDR 1 7 "q" "page_3" Sample.pending);
      first [reflexivity | discriminate].
Defined.


Lemma add_bare_twice_witness :
  let w1 := on_add IPv4.isValidCIDR 7 1 "1.2.3.4" initial in
  let w2 := on_add IPv4.isValidCIDR 7 1 "1.2.3.4" w1 in
  ip_addresses w2 = [mkRow 1 7 (Some "1.2.3.4") None]
  /\ calls w2
     = [sendMessage 1 "IP address 1.2.3.4 added successfully." None;
        sendMessage 1 "Address 1.2.3.4 has already been added." None].
Proof.
  destruct (add_bare_twice IPv4.isValidCIDR 7 1 "1.2.3.4" initial eq_refl eq_refl eq_refl)
    as (H1 & H2 & H3).
  split.
  - rewrite H1, H2. reflexivity.
  - rewrite H3. reflexivity.
Defined.

Lemma command_argument_witness :
  Js.exec_literal_dots "/add " "/add  1.2.3.4 " = Some " 1.2.3.4 "
  /\ Js.exec_literal_dots "/add " "/add" = None.
Proof.
  destruct (command_argument "/add ") as (_ & Hmatch & Hnone).
  split.
  - apply (Hmatch " 1.2.3.4 " ""); [discriminate | reflexivity | left; reflexivity].
  - apply Hnone; [discriminate | cbn; lia].
Defined.

Lemma surrounding_space_ignored_witness :
  on_delete 7 1 "  1.2.3.4 " Sample.shared = on_delete 7 1 "1.2.3.4" Sample.shared.
Proof.
  exact (proj1 (proj2 (surrounding_space_ignored IPv4.isValidCIDR IPv4.contains 7 1
                         "  1.2.3.4 " "1.2.3.4" Sample.shared eq_refl))).
Defined.
